(** * slip-macos: the SLIP codec and the two forwarding pumps of [slip.c]

    A shallow embedding of [encode_slip], [decode_slip], [next_slip_packet],
    [tx_thread], [rx_thread], the three transport openers,
    [connect_device], [tun], [create_utun], [run_ifconfig] and the loop of
    [main], with the properties of the design document stated over them
    and, after those, further properties read off the program.

    Conventions of the embedding.
    - An [unsigned char] is a [Z] in [0, 256); an [int] is a [Z] (every
      counter of the program stays far below [2^31] on the inputs considered,
      which the bounds proved below make explicit).
    - A C array is a [list Z] of the declared size.  A load or a store
      outside the array is undefined behaviour in C; the embedding makes it
      an outcome of its own ([Undefined]) instead of giving it a meaning.
    - A pointer into an array is the offset from its start.
    - A file descriptor is the script of what its successive system calls
      return. *)

From Stdlib Require Import ZArith List Lia Bool Ascii String.
From stdpp Require Import base list.
Import ListNotations.

Local Open Scope Z_scope.

(** ** Constants of [slip.c] *)

Definition MTU : Z := 1500.
Definition NULL_LOOPBACK_HEADER_SIZE : Z := 4.
Definition MAX_PACKET_SIZE : Z := MTU + NULL_LOOPBACK_HEADER_SIZE.
Definition MAX_PACKET_SIZE_SLIP : Z := MTU * 2 + 1.

Definition END : Z := 0xc0.
Definition ESC : Z := 0xdb.
Definition ESC_ESC : Z := 0xdd.
Definition ESC_END : Z := 0xdc.

Definition DECODE_END_OF_PACKET : Z := -2.

(** [AF_INET] comes from [<sys/socket.h>], where it is 2. *)
Definition AF_INET : Z := 2.

Definition is_byte (b : Z) : Prop := 0 <= b < 256.

(** ** Outcomes of a run *)

Inductive fault : Type :=
| LoadOutside (i : Z)      (* read of cell [i] outside the array *)
| StoreOutside (i : Z)     (* write of cell [i] outside the array *)
| NegativeCount (n : Z).   (* a negative [int] passed as a [size_t] count *)

Inductive run (A : Type) : Type :=
| Done (a : A)
| Undefined (f : fault)
| Starved.                 (* the step budget of a loop ran out *)

Arguments Done {A} a.
Arguments Undefined {A} f.
Arguments Starved {A}.

Definition and_then {A B : Type} (m : run A) (k : A -> run B) : run B :=
  match m with
  | Done a => k a
  | Undefined f => Undefined f
  | Starved => Starved
  end.

Notation "x <- m ;; k" := (and_then m (fun x => k))
  (at level 100, m at next level, right associativity).

(** ** Arrays *)

Definition in_bounds (a : list Z) (i : Z) : bool :=
  (0 <=? i) && (i <? Z.of_nat (length a)).

(** [a[i]] as an rvalue. *)
Definition load (a : list Z) (i : Z) : run Z :=
  if in_bounds a i then
    match a !! Z.to_nat i with
    | Some v => Done v
    | None => Undefined (LoadOutside i)
    end
  else Undefined (LoadOutside i).

(** [a[i] = v]. *)
Definition store (a : list Z) (i : Z) (v : Z) : run (list Z) :=
  if in_bounds a i then Done (<[Z.to_nat i := v]> a)
  else Undefined (StoreOutside i).

(** [memcpy(&dst[doff], &src[soff], n)] with [n] an [int]: a negative [n]
    becomes a count near [2^64] and leaves both arrays. *)
Definition memcpy (dst : list Z) (doff : Z) (src : list Z) (soff : Z) (n : Z)
  : run (list Z) :=
  if n <? 0 then Undefined (NegativeCount n)
  else if Z.of_nat (length src) <? soff + n then
    Undefined (LoadOutside (Z.of_nat (length src)))
  else if Z.of_nat (length dst) <? doff + n then
    Undefined (StoreOutside (Z.of_nat (length dst)))
  else
    Done (take (Z.to_nat doff) dst
            ++ take (Z.to_nat n) (drop (Z.to_nat soff) src)
            ++ drop (Z.to_nat (doff + n)) dst).

(** ** [encode_slip] *)

(** The locals of [encode_slip]: the two moving pointers as offsets, the
    running [count] and the output array. *)
Record enc_state : Type := mk_enc
  { e_in : Z; e_out : Z; e_count : Z; e_buf : list Z }.

(** One pass through the body of the [for] loop. *)
Definition encode_body (inb : list Z) (s : enc_state) : run enc_state :=
  c <- load inb (e_in s) ;;
  if c =? END then
    b1 <- store (e_buf s) (e_out s) ESC ;;
    b2 <- store b1 (e_out s + 1) ESC_END ;;
    Done (mk_enc (e_in s + 1) (e_out s + 1 + 1) (e_count s + 1 + 1) b2)
  else if c =? ESC then
    b1 <- store (e_buf s) (e_out s) ESC ;;
    b2 <- store b1 (e_out s + 1) ESC_ESC ;;
    Done (mk_enc (e_in s + 1) (e_out s + 1 + 1) (e_count s + 1 + 1) b2)
  else
    b1 <- store (e_buf s) (e_out s) c ;;
    Done (mk_enc (e_in s + 1) (e_out s + 1) (e_count s + 1) b1).

(** [for (i = 0; i < length; i++)] runs its body [length] times (no time
    when [length <= 0]); [n] counts the passes left. *)
Fixpoint encode_loop (n : nat) (inb : list Z) (s : enc_state) : run enc_state :=
  match n with
  | O => Done s
  | S n' => s' <- encode_body inb s ;; encode_loop n' inb s'
  end.

(** [encode_slip(in, out, length)]: the output array after the call and the
    returned count. *)
Definition encode_slip (inb : list Z) (out : list Z) (length : Z)
  : run (list Z * Z) :=
  s <- encode_loop (Z.to_nat length) inb (mk_enc 0 0 0 out) ;;
  b <- store (e_buf s) (e_out s) END ;;
  Done (b, e_count s + 1).

(** The Transport Frame a caller sends after [encode_slip]: the first
    [count] bytes of the output array, as in
    [write(args->serialfd, encoded, encoded_length)]. *)
Definition frame_of (r : run (list Z * Z)) : run (list Z) :=
  x <- r ;; Done (take (Z.to_nat (snd x)) (fst x)).

(** ** The transport descriptor as the decoder sees it *)

(** What one [read(fd, &c, 1)] does: deliver a byte and return 1, return 0
    (end of stream), or return -1 (error).  A script that has run out stands
    for a stream that has ended: further reads return 0. *)
Inductive rd_event : Type :=
| Rd (b : Z)
| Eof
| Fail.

(** The two lines [decode_slip] prints before returning -1. *)
Inductive diag : Type :=
| Read_error        (* printf("Read error\n") *)
| Decoding_error.   (* printf("Decoding error\n") *)

(** [chan]: what is left of the descriptor's script.  [cell]: the storage of
    the local [unsigned char c] of [decode_slip], which the function never
    initialises: a call finds there whatever the stack holds, and only a
    [read] that delivers a byte overwrites it.  The first call is given the
    content as a parameter; a later call finds what the call before it
    left, the calls being made from the same frame.  No result below on a
    stream without failed reads depends on that content.  [said]: the lines
    [decode_slip] has printed (the other output of the program is not
    modelled). *)
Record port : Type := mk_port
  { chan : list rd_event; cell : Z; said : list diag }.

(** [read(fd, &c, 1)]: the value returned and the port afterwards. *)
Definition read (p : port) : Z * port :=
  match chan p with
  | Rd b :: ch => (1, mk_port ch b (said p))
  | Eof :: ch => (0, mk_port ch (cell p) (said p))
  | Fail :: ch => (-1, mk_port ch (cell p) (said p))
  | [] => (0, p)
  end.

Definition printf (d : diag) (p : port) : port :=
  mk_port (chan p) (cell p) (said p ++ [d]).

(** [decode_slip(fd)].  The test [!read(fd, &c, 1)] holds exactly when
    [read] returns 0. *)
Definition decode_slip (p : port) : Z * port :=
  let (n, p1) := read p in
  if n =? 0 then (-1, printf Read_error p1)
  else if cell p1 =? ESC then
    let (n2, p2) := read p1 in
    if n2 =? 0 then (-1, printf Read_error p2)
    else if cell p2 =? ESC_END then (END, p2)
    else if cell p2 =? ESC_ESC then (ESC, p2)
    else (-1, printf Decoding_error p2)
  else if cell p1 =? END then (DECODE_END_OF_PACKET, p1)
  else (cell p1, p1).

(** The [while (1)] of [next_slip_packet], with [buf] and [i] as they stand
    on entry to a pass.  Every pass that does not return consumes at least
    one event of the script, so the budget below is never the reason to
    stop (lemma [next_slip_packet_not_starved]). *)
Fixpoint next_slip_loop (budget : nat) (p : port) (buf : list Z) (i : Z)
  : run (Z * list Z * port) :=
  match budget with
  | O => Starved
  | S budget' =>
      let (result, p1) := decode_slip p in
      if result =? -1 then Done (-1, buf, p1)
      else if result =? DECODE_END_OF_PACKET then Done (i, buf, p1)
      else
        buf1 <- store buf i (result mod 256) ;;
        next_slip_loop budget' p1 buf1 (i + 1)
  end.

(** [next_slip_packet(fd, buf)]: the value returned, [buf] and the port
    afterwards. *)
Definition next_slip_packet (p : port) (buf : list Z)
  : run (Z * list Z * port) :=
  next_slip_loop (S (length (chan p))) p buf 0.

(** ** [rx_thread] *)

(** How a pass through the body of a [while (1)] ends: at the bottom or at
    a [continue] (the loop goes on), or at a [return]. *)
Inductive flow (A : Type) : Type :=
| Continue (s : A)
| Return (s : A).

Arguments Continue {A} s.
Arguments Return {A} s.

(** The transport, the two arrays [c] and [packet] of [rx_thread], and the
    buffers handed to [write(args->utunfd, packet, length)] so far (the
    value [write] returns is not looked at). *)
Record rx_state : Type := mk_rx
  { rx_port : port; rx_c : list Z; rx_packet : list Z;
    rx_utun : list (list Z) }.

Definition rx_body (s : rx_state) : run (flow rx_state) :=
  r <- next_slip_packet (rx_port s) (rx_c s) ;;
  let '(length, c, p) := r in
  if length <? 0 then Done (Return (mk_rx p c (rx_packet s) (rx_utun s)))
  else if length <? 1 then
    Done (Continue (mk_rx p c (rx_packet s) (rx_utun s)))
  else
    packet <- memcpy (rx_packet s) 4 c 0 length ;;
    let length := length + 4 in
    Done (Continue (mk_rx p c packet
                      (rx_utun s ++ [take (Z.to_nat length) packet]))).

Fixpoint rx_loop (budget : nat) (s : rx_state) : run rx_state :=
  match budget with
  | O => Starved
  | S budget' =>
      r <- rx_body s ;;
      match r with
      | Continue s' => rx_loop budget' s'
      | Return s' => Done s'
      end
  end.

(** [rx_thread]: [c] and [packet] are the two arrays as the stack holds them
    on entry; a pass that does not return consumes at least one event. *)
Definition rx_thread (p : port) (c packet : list Z) : run rx_state :=
  pk0 <- store packet 0 0 ;;
  pk1 <- store pk0 1 0 ;;
  pk2 <- store pk1 2 0 ;;
  pk3 <- store pk2 3 AF_INET ;;
  rx_loop (S (length (chan p))) (mk_rx p c pk3 []).

(** ** [tx_thread] *)

(** What one [read(args->utunfd, c, MAX_PACKET_SIZE)] does: fail with -1, or
    deliver one Link Frame, cut to the size asked for.  A script that has
    run out stands for a closed descriptor: [read] returns 0. *)
Inductive tun_event : Type :=
| TunFail
| TunFrame (bytes : list Z).

Definition read_utun (ev : list tun_event) (c : list Z)
  : Z * list Z * list tun_event :=
  match ev with
  | TunFail :: ev' => (-1, c, ev')
  | TunFrame bytes :: ev' =>
      let d := take (Z.to_nat MAX_PACKET_SIZE) bytes in
      (Z.of_nat (length d), d ++ drop (length d) c, ev')
  | [] => (0, c, [])
  end.

(** What one [write(args->serialfd, encoded, encoded_length)] does, given
    the value the transport makes it return: a negative value is an error
    and nothing is sent; otherwise that many bytes, at most all of them, go
    out.  A script that has run out stands for a transport that takes
    everything.  Only a [write] that returns has a place in the script: a
    [write] on a socket whose peer has closed raises [SIGPIPE], which the
    program neither ignores nor blocks and which ends the process before
    [write] returns; that end is outside this model. *)
Definition write_serial (results : list Z) (data : list Z)
  : Z * list Z * list Z :=
  match results with
  | r :: results' =>
      if r <? 0 then (-1, [], results')
      else (Z.min r (Z.of_nat (length data)), take (Z.to_nat r) data, results')
  | [] => (Z.of_nat (length data), data, [])
  end.

(** The tunnel script, the script of [write] results on the transport, the
    buffers handed to [write] so far and the bytes the transport took. *)
Record tx_state : Type := mk_tx
  { tx_utun : list tun_event; tx_results : list Z;
    tx_calls : list (list Z); tx_wire : list Z }.

(** The three arrays declared in the body of the loop of [tx_thread], as
    the stack holds them when a pass begins. *)
Record tx_stack : Type := mk_stack
  { k_c : list Z; k_packet : list Z; k_encoded : list Z }.

Definition tx_body (k : tx_stack) (s : tx_state) : run (flow tx_state) :=
  let '(len, c, utun) := read_utun (tx_utun s) (k_c k) in
  if len =? -1 then
    Done (Return (mk_tx utun (tx_results s) (tx_calls s) (tx_wire s)))
  else
    let len := len - 4 in
    packet <- memcpy (k_packet k) 0 c 4 len ;;
    r <- encode_slip packet (k_encoded k) len ;;
    let (encoded, encoded_length) := r : list Z * Z in
    let data := take (Z.to_nat encoded_length) encoded in
    let '(_, sent, results) := write_serial (tx_results s) data in
    Done (Continue (mk_tx utun results (tx_calls s ++ [data])
                      (tx_wire s ++ sent))).

Fixpoint tx_loop (budget : nat) (k : tx_stack) (s : tx_state) : run tx_state :=
  match budget with
  | O => Starved
  | S budget' =>
      r <- tx_body k s ;;
      match r with
      | Continue s' => tx_loop budget' k s'
      | Return s' => Done s'
      end
  end.

(** [tx_thread]: every pass consumes one event of the tunnel script, and the
    pass after the last one reads 0 bytes.  The arrays of the body are not
    initialised, so each pass is given the same arbitrary contents [k]; what
    is proved of a pass holds for every [k] of the declared sizes. *)
Definition tx_thread (k : tx_stack) (s : tx_state) : run tx_state :=
  tx_loop (S (length (tx_utun s))) k s.

(** ** Opening the transport *)

(** What the system calls of one attempt to open the transport return.  Only
    the calls whose result the program tests are listed; a descriptor is a
    non-negative number and -1 is failure. *)
Record syscalls : Type := mk_sys
  { sys_open : Z; sys_tcflush : Z; sys_tcgetattr : Z; sys_tcsetattr : Z;
    sys_socket : Z; sys_connect : Z; sys_bind : Z; sys_listen : Z;
    sys_accept : Z }.

(** A C function either returns to its caller or ends the process through
    [exit(status)]. *)
Inductive call (A : Type) : Type :=
| Returns (a : A)
| Exits (status : Z).

Arguments Returns {A} a.
Arguments Exits {A} status.

(** [open_serial_port]: a failing [tcflush] is only a warning; the baud rate
    selects a speed constant and has no part in the value returned. *)
Definition open_serial_port (e : syscalls) (baud_rate : Z) : call Z :=
  let fd := sys_open e in
  if fd =? -1 then Returns (-1)
  else if negb (sys_tcgetattr e =? 0) then Returns (-1)
  else if negb (sys_tcsetattr e =? 0) then Returns (-1)
  else Returns fd.

Definition open_unix_domain_socket_as_client (e : syscalls)
  (error_is_fatal : Z) : call Z :=
  let fd := sys_socket e in
  if fd =? -1 then Exits (-1)
  else if sys_connect e =? -1 then Returns (-1)
  else Returns fd.

Definition open_unix_domain_socket_as_server (e : syscalls) : call Z :=
  let fd := sys_socket e in
  if fd =? -1 then Exits (-1)
  else if sys_bind e =? -1 then Exits (-1)
  else if sys_listen e =? -1 then Exits (-1)
  else
    let cl := sys_accept e in
    if cl =? -1 then Returns (-1) else Returns cl.

(** The three values of [device_type] that [main] lets through. *)
Inductive device_type : Type :=
| DEVICE_TYPE_HARDWARE
| DEVICE_TYPE_SOCKET_CLIENT
| DEVICE_TYPE_SOCKET_SERVER.

(** How [connect_device] ends on a script of attempts: it returns a
    descriptor, the process exits, or the script runs out with the loop
    still going round. *)
Inductive opened : Type :=
| Opened (fd : Z)
| Exited (status : Z)
| StillTrying.

(** [connect_device]: one attempt of the script per pass of [while (1)]. *)
Fixpoint connect_device (t : device_type) (attempts : list syscalls)
  (baud : Z) (error_is_fatal : Z) : opened :=
  match attempts with
  | [] => StillTrying
  | e :: attempts' =>
      let r :=
        match t with
        | DEVICE_TYPE_HARDWARE => open_serial_port e baud
        | DEVICE_TYPE_SOCKET_CLIENT =>
            open_unix_domain_socket_as_client e error_is_fatal
        | DEVICE_TYPE_SOCKET_SERVER => open_unix_domain_socket_as_server e
        end in
      match r with
      | Exits status => Exited status
      | Returns fd =>
          if fd =? -1 then
            if negb (error_is_fatal =? 0) then Exited 1
            else connect_device t attempts' baud error_is_fatal
          else Opened fd
      end
  end.

(** ** [tun] and [create_utun] *)

Definition MAX_UTUN_NUMBER : Z := 255.

(** From [<net/if_utun.h>] and [<sys/kern_control.h>]: the length of
    [UTUN_CONTROL_NAME], which is ["com.apple.net.utun_control"], and the
    size of [ctl_name]. *)
Definition UTUN_CONTROL_NAME_length : Z := 26.
Definition MAX_KCTL_NAME : Z := 96.

(** What the three system calls of one call of [tun] return. *)
Record tun_calls : Type := mk_tun
  { tun_socket : Z; tun_ioctl : Z; tun_connect : Z }.

(** [tun(number)]: [kernel u] is what the system calls return when the unit
    asked for, [sc_unit], is [u]; [strlcpy] returns the length of the name
    it was given. *)
Definition tun (kernel : Z -> tun_calls) (number : Z) : Z :=
  if MAX_KCTL_NAME <=? UTUN_CONTROL_NAME_length then -1
  else
    let e := kernel (number + 1) in
    let fd := tun_socket e in
    if fd =? -1 then -1
    else if tun_ioctl e =? -1 then -1
    else if tun_connect e =? -1 then -1
    else fd.

(** The [while (num < MAX_UTUN_NUMBER)] of [create_utun], entered with
    [fd = -1]: at most [MAX_UTUN_NUMBER - num] passes; it gives [fd] and
    [num] as they stand after the loop. *)
Fixpoint create_utun_loop (passes : nat) (kernel : Z -> tun_calls) (num : Z)
  : Z * Z :=
  match passes with
  | O => (-1, num)
  | S passes' =>
      let result := tun kernel num in
      if negb (result =? -1) then (result, num)
      else create_utun_loop passes' kernel (num + 1)
  end.

(** [create_utun(&utun_num)]: the descriptor returned and the number left
    in [utun_num]. *)
Definition create_utun (kernel : Z -> tun_calls) : call (Z * Z) :=
  let (fd, num) := create_utun_loop (Z.to_nat MAX_UTUN_NUMBER) kernel 0 in
  if fd =? -1 then Exits 1 else Returns (fd, num).

(** ** [run_ifconfig] *)

(** The character codes of a string constant. *)
Definition chars (s : string) : list Z :=
  map (fun a => Z.of_N (N_of_ascii a)) (list_ascii_of_string s).

(** The decimal digits of [n >= 0], most significant first; ten digits are
    enough for an [int]. *)
Fixpoint digits (places : nat) (n : Z) : list Z :=
  match places with
  | O => []
  | S places' =>
      if n <? 10 then [48 + n]
      else digits places' (n / 10) ++ [48 + n mod 10]
  end.

(** What [%i] prints for the [int] [n]. *)
Definition itoa (n : Z) : list Z :=
  if n <? 0 then 45 :: digits 10 (- n) else digits 10 n.

(** The characters that [sprintf] produces for the format
    ["ifconfig utun%i %s %s"]. *)
Definition ifconfig_text (utun_num : Z) (local_ip remote_ip : list Z)
  : list Z :=
  chars "ifconfig utun" ++ itoa utun_num ++ [32] ++ local_ip
    ++ [32] ++ remote_ip.

(** Storing characters one after the other from index [i] on. *)
Fixpoint write_chars (buf : list Z) (i : Z) (text : list Z) : run (list Z) :=
  match text with
  | [] => Done buf
  | ch :: text' => b <- store buf i ch ;; write_chars b (i + 1) text'
  end.

(** The string a C function reads in [buf]: the characters before the
    first 0. *)
Fixpoint c_string (buf : list Z) : list Z :=
  match buf with
  | [] => []
  | ch :: buf' => if ch =? 0 then [] else ch :: c_string buf'
  end.

(** [run_ifconfig]: [ifconfig] is the array of 50 characters as the stack
    holds it on entry, [system] what the call of that name returns for a
    command line; [sprintf] stores the text and the 0 that ends it. *)
Definition run_ifconfig (ifconfig : list Z) (system : list Z -> Z)
  (utun_num : Z) (local_ip remote_ip : list Z) : run (call unit) :=
  b <- write_chars ifconfig 0
         (ifconfig_text utun_num local_ip remote_ip ++ [0]) ;;
  if negb (system (c_string b) =? 0) then Done (Exits 1)
  else Done (Returns tt).

(** ** The loop of [main] *)

(** The two lines [main] prints in its loop. *)
Inductive main_line : Type :=
| Connection_up     (* printf("SLIP connection up\n") *)
| Device_lost.      (* printf("Device lost, attempting reconnect...\n") *)

(** One turn of the loop of [main]: the transport as the descriptor in
    [thread_args.serialfd] serves it to the [rx_thread] started in this
    turn, the two arrays of that thread as its stack holds them, and what
    the system calls return to the [connect_device] that follows. *)
Record session : Type := mk_session
  { ses_port : port; ses_c : list Z; ses_packet : list Z;
    ses_attempts : list syscalls }.

(** How the loop of [main] stands when the script of sessions is used up:
    the process has exited inside [connect_device], or [connect_device] is
    still going round, or the next [rx_thread] is about to start. *)
Inductive main_end : Type :=
| ProcessExited (status : Z)
| Reconnecting
| NextSession.

(** The lines printed and the buffers handed to the tunnel so far. *)
Record main_state : Type := mk_main
  { m_lines : list main_line; m_tunnel : list (list Z) }.

(** The [while (1)] of [main], as far as the main thread and the
    [rx_thread] it waits for are concerned: [pthread_create] starts
    [rx_thread], [pthread_join] waits until it returns, then
    [connect_device] is called with [error_is_fatal = 0] and the descriptor
    it returns serves the next session.  [tx_thread] runs beside this loop
    and takes no part in what is recorded here. *)
Fixpoint main_loop (t : device_type) (baud : Z) (sessions : list session)
  (m : main_state) : run (main_end * main_state) :=
  match sessions with
  | [] => Done (NextSession, m)
  | ss :: sessions' =>
      s <- rx_thread (ses_port ss) (ses_c ss) (ses_packet ss) ;;
      let m1 := mk_main (m_lines m ++ [Connection_up; Device_lost])
                  (m_tunnel m ++ rx_utun s) in
      match connect_device t (ses_attempts ss) baud 0 with
      | Opened fd => main_loop t baud sessions' m1
      | Exited status => Done (ProcessExited status, m1)
      | StillTrying => Done (Reconnecting, m1)
      end
  end.

(** ** The encoder as the design document words it *)

(** Section 4.1: a byte equal to [END] becomes [ESC, ESC_END], a byte equal
    to [ESC] becomes [ESC, ESC_ESC], any other byte is copied. *)
Definition stuffed (b : Z) : list Z :=
  if b =? END then [ESC; ESC_END]
  else if b =? ESC then [ESC; ESC_ESC]
  else [b].

Fixpoint stuffing (packet : list Z) : list Z :=
  match packet with
  | [] => []
  | b :: packet' => stuffed b ++ stuffing packet'
  end.

(** Section 4.1: the stuffed bytes, then one trailing [END]. *)
Definition Encode_doc (packet : list Z) : list Z := stuffing packet ++ [END].

(** ** Link Frames and streams of frames, as the design document words them *)

(** Section 4.2, Wrap: the header [0x00, 0x00, 0x00, ADDRESS_FAMILY_INET]
    before the packet. *)
Definition Wrap_doc (packet : list Z) : list Z := [0; 0; 0; AF_INET] ++ packet.

(** The transport stream that carries the packets [packets] one frame after
    the other. *)
Fixpoint stream_of (packets : list (list Z)) : list rd_event :=
  match packets with
  | [] => []
  | f :: packets' => map Rd (Encode_doc f) ++ stream_of packets'
  end.

(** Section 4.4: the Link Frames due to the tunnel for [packets]: each
    packet wrapped, the empty ones left out. *)
Fixpoint forwarded (packets : list (list Z)) : list (list Z) :=
  match packets with
  | [] => []
  | [] :: packets' => forwarded packets'
  | f :: packets' => Wrap_doc f :: forwarded packets'
  end.

(** A packet the inbound pump can hold: bytes, at most [MTU] of them. *)
Definition fits (f : list Z) : Prop :=
  Forall is_byte f /\ Z.of_nat (length f) <= MTU.

(** The two arrays of [rx_thread] once its header is in place. *)
Definition rx_arrays (c packet : list Z) : Prop :=
  Z.of_nat (length c) = MTU
  /\ Z.of_nat (length packet) = MAX_PACKET_SIZE
  /\ take 4 packet = [0; 0; 0; AF_INET].

(** ** Writing a frame in full, as the design document asks *)

(** Section 4.3: a pass of the outbound pump that handed [frame] to the
    transport has put all of [frame] on the wire, unless a write failed. *)
Definition written_in_full_or_failed (k : tx_stack) (s : tx_state) : Prop :=
  forall (s' : tx_state) (frame : list Z),
    tx_body k s = Done (Continue s') ->
    tx_calls s' = tx_calls s ++ [frame] ->
    tx_wire s' = tx_wire s ++ frame
    \/ exists r, In r (tx_results s) /\ r < 0.

(** What a single [write] with scripted results [results] puts on the wire
    out of [frame]. *)
Definition taken (results : list Z) (frame : list Z) : list Z :=
  match results with
  | [] => frame
  | r :: _ => if r <? 0 then [] else take (Z.to_nat r) frame
  end.

(** A stack whose cells all hold 0, for the worked examples. *)
Definition blank_stack : tx_stack :=
  mk_stack (repeat 0 (Z.to_nat MAX_PACKET_SIZE)) (repeat 0 (Z.to_nat MTU))
    (repeat 0 (Z.to_nat MAX_PACKET_SIZE_SLIP)).

(** ** Streams that stop inside a frame; Link Frames fit for the tunnel *)

(** [cut_short ending rest]: the stream [ending] makes the read in progress
    return 0, at once or after a pending [ESC], and leaves [rest] unread:
    the script runs out, or the descriptor reports its end. *)
Inductive cut_short : list rd_event -> list rd_event -> Prop :=
| cut_here : cut_short [] []
| cut_eof (rest : list rd_event) : cut_short (Eof :: rest) rest
| cut_in_escape : cut_short [Rd ESC] []
| cut_eof_in_escape (rest : list rd_event) :
    cut_short (Rd ESC :: Eof :: rest) rest.

(** What [rx_thread] hands to the tunnel: the header of [rx_thread], then 1
    to [MTU] bytes. *)
Definition link_frame (f : list Z) : Prop :=
  take 4 f = [0; 0; 0; AF_INET]
  /\ 5 <= Z.of_nat (length f) <= MAX_PACKET_SIZE.

(** ** The outbound pump over several tunnel reads *)

(** A read from the tunnel that [tx_thread] can strip: 4 to [MTU + 4]
    bytes. *)
Definition tunnel_frame (f : list Z) : Prop :=
  4 <= Z.of_nat (length f) <= MAX_PACKET_SIZE.

(** The arrays of the body of [tx_thread] have their declared sizes. *)
Definition tx_arrays (k : tx_stack) : Prop :=
  Z.of_nat (length (k_c k)) = MAX_PACKET_SIZE
  /\ Z.of_nat (length (k_packet k)) = MTU
  /\ Z.of_nat (length (k_encoded k)) = MAX_PACKET_SIZE_SLIP.

(** The Transport Frames of the tunnel reads [frames]: each read less its
    first four bytes, encoded. *)
Definition encoded (frames : list (list Z)) : list (list Z) :=
  map (fun f => Encode_doc (drop 4 f)) frames.

(** What reaches the wire when the frames are handed to [write] one call
    each and the calls return [results] in turn. *)
Fixpoint wire_of (results : list Z) (frames : list (list Z)) : list Z :=
  match frames with
  | [] => []
  | f :: frames' => taken results f ++ wire_of (tl results) frames'
  end.

(** ** One attempt of [connect_device] *)

(** The [switch] of [connect_device] on its own: the opener that
    [device_type] selects, run on the system calls of one attempt. *)
Definition open_device (t : device_type) (e : syscalls) (baud : Z)
  (error_is_fatal : Z) : call Z :=
  match t with
  | DEVICE_TYPE_HARDWARE => open_serial_port e baud
  | DEVICE_TYPE_SOCKET_CLIENT =>
      open_unix_domain_socket_as_client e error_is_fatal
  | DEVICE_TYPE_SOCKET_SERVER => open_unix_domain_socket_as_server e
  end.

(** What [tx_thread] hands to the transport: 1 to [2 * MTU + 1] bytes, the
    last of them [END] and no other. *)
Definition transport_frame (f : list Z) : Prop :=
  1 <= Z.of_nat (length f) <= MAX_PACKET_SIZE_SLIP
  /\ exists body, f = body ++ [END] /\ ~ In END body.


(** ** Arrays: loads and stores at the end of a known prefix *)

Lemma load_after (pre : list Z) (b : Z) (post : list Z) (i : Z) :
  i = Z.of_nat (length pre) -> load (pre ++ b :: post) i = Done b.
Proof.
  intros ->. unfold load, in_bounds.
  rewrite length_app; cbn [length].
  replace (0 <=? Z.of_nat (length pre)) with true by (symmetry; apply Z.leb_le; lia).
  replace (Z.of_nat (length pre) <? Z.of_nat (length pre + S (length post))) with true
    by (symmetry; apply Z.ltb_lt; lia).
  cbn [andb]. rewrite Nat2Z.id.
  rewrite lookup_app_r by lia. rewrite Nat.sub_diag. reflexivity.
Qed.

Lemma store_after (w : list Z) (x : Z) (tail : list Z) (i v : Z) :
  i = Z.of_nat (length w) -> store (w ++ x :: tail) i v = Done (w ++ v :: tail).
Proof.
  intros ->. unfold store, in_bounds.
  rewrite length_app; cbn [length].
  replace (0 <=? Z.of_nat (length w)) with true by (symmetry; apply Z.leb_le; lia).
  replace (Z.of_nat (length w) <? Z.of_nat (length w + S (length tail))) with true
    by (symmetry; apply Z.ltb_lt; lia).
  cbn [andb]. rewrite Nat2Z.id.
  rewrite insert_app_r_alt by lia. rewrite Nat.sub_diag. reflexivity.
Qed.

Lemma store_full (a : list Z) (i v : Z) :
  Z.of_nat (length a) <= i -> store a i v = Undefined (StoreOutside i).
Proof.
  intros H. unfold store, in_bounds.
  replace (i <? Z.of_nat (length a)) with false by (symmetry; apply Z.ltb_ge; lia).
  rewrite andb_false_r. reflexivity.
Qed.

(** ** The encoder writes the stuffed bytes *)

Lemma length_stuffed (b : Z) :
  (1 <= length (stuffed b) <= 2)%nat.
Proof. unfold stuffed. repeat case (_ =? _); cbn; lia. Qed.

Lemma length_stuffing (p : list Z) :
  (length p <= length (stuffing p) <= 2 * length p)%nat.
Proof.
  induction p as [|b p IH]; cbn [stuffing length]; [lia|].
  rewrite length_app. pose proof (length_stuffed b). lia.
Qed.

Lemma length_Encode_doc (p : list Z) :
  (length p + 1 <= length (Encode_doc p) <= 2 * length p + 1)%nat.
Proof.
  unfold Encode_doc. rewrite length_app. cbn [length].
  pose proof (length_stuffing p). lia.
Qed.

(** One pass over a byte [b] read at the input pointer, with room for two
    bytes at the output pointer: the stuffed form of [b] lands there, and
    the pointers and the count advance by as much. *)
Lemma encode_body_run (pre : list Z) (b : Z) (post w : list Z) (x y : Z)
  (tail : list Z) (s : enc_state) :
  e_in s = Z.of_nat (length pre) ->
  e_out s = Z.of_nat (length w) ->
  e_buf s = w ++ x :: y :: tail ->
  exists s',
    encode_body (pre ++ b :: post) s = Done s'
    /\ e_in s' = Z.of_nat (length (pre ++ [b]))
    /\ e_out s' = Z.of_nat (length (w ++ stuffed b))
    /\ e_count s' = e_count s + Z.of_nat (length (stuffed b))
    /\ e_buf s' = (w ++ stuffed b) ++ drop (length (stuffed b)) (x :: y :: tail).
Proof.
  intros Hin Hout Hbuf. unfold encode_body.
  rewrite (load_after pre b post) by assumption. cbn [and_then].
  rewrite Hbuf. unfold stuffed.
  destruct (b =? END) eqn:E1; [|destruct (b =? ESC) eqn:E2].
  - rewrite (store_after w x (y :: tail)) by assumption. cbn [and_then].
    replace (w ++ ESC :: y :: tail) with ((w ++ [ESC]) ++ y :: tail)
      by (rewrite <- app_assoc; reflexivity).
    rewrite (store_after (w ++ [ESC]) y tail (e_out s + 1) ESC_END).
    2:{ rewrite length_app; cbn [length]; lia. }
    cbn [and_then]. eexists; split; [reflexivity|].
    cbn [e_in e_out e_count e_buf]. rewrite !length_app. cbn [length drop].
    rewrite <- !app_assoc. cbn [app]. repeat split; lia.
  - rewrite (store_after w x (y :: tail)) by assumption. cbn [and_then].
    replace (w ++ ESC :: y :: tail) with ((w ++ [ESC]) ++ y :: tail)
      by (rewrite <- app_assoc; reflexivity).
    rewrite (store_after (w ++ [ESC]) y tail (e_out s + 1) ESC_ESC).
    2:{ rewrite length_app; cbn [length]; lia. }
    cbn [and_then]. eexists; split; [reflexivity|].
    cbn [e_in e_out e_count e_buf]. rewrite !length_app. cbn [length drop].
    rewrite <- !app_assoc. cbn [app]. repeat split; lia.
  - rewrite (store_after w x (y :: tail)) by assumption. cbn [and_then].
    eexists; split; [reflexivity|].
    cbn [e_in e_out e_count e_buf]. rewrite !length_app. cbn [length drop].
    rewrite <- !app_assoc. cbn [app]. repeat split; lia.
Qed.

(** The loop over a packet [p] found at the input pointer, with room for
    [2 * length p] bytes at the output pointer. *)
Lemma encode_loop_run (p : list Z) :
  forall (pre post w tail : list Z) (s : enc_state),
    e_in s = Z.of_nat (length pre) ->
    e_out s = Z.of_nat (length w) ->
    e_buf s = w ++ tail ->
    (2 * length p <= length tail)%nat ->
    exists s',
      encode_loop (length p) (pre ++ p ++ post) s = Done s'
      /\ e_in s' = Z.of_nat (length (pre ++ p))
      /\ e_out s' = Z.of_nat (length (w ++ stuffing p))
      /\ e_count s' = e_count s + Z.of_nat (length (stuffing p))
      /\ e_buf s' = (w ++ stuffing p) ++ drop (length (stuffing p)) tail.
Proof.
  induction p as [|b p IH]; intros pre post w tail s Hin Hout Hbuf Hroom.
  - exists s. cbn [encode_loop stuffing length drop].
    rewrite !app_nil_r. repeat split; try assumption; lia.
  - destruct tail as [|x [|y tail]]; cbn [length] in Hroom; try lia.
    destruct (encode_body_run pre b (p ++ post) w x y tail s Hin Hout Hbuf)
      as (s1 & Hrun & Hin1 & Hout1 & Hcnt1 & Hbuf1).
    destruct (IH (pre ++ [b]) post (w ++ stuffed b)
                (drop (length (stuffed b)) (x :: y :: tail)) s1 Hin1 Hout1 Hbuf1)
      as (s2 & Hrun2 & Hin2 & Hout2 & Hcnt2 & Hbuf2).
    { rewrite length_drop. cbn [length].
      pose proof (length_stuffed b). lia. }
    exists s2. cbn [encode_loop length app].
    change (b :: p ++ post) with ([b] ++ p ++ post) in Hrun.
    cbn [app] in Hrun. rewrite Hrun. cbn [and_then].
    rewrite <- app_assoc in Hrun2. cbn [app] in Hrun2. rewrite Hrun2.
    split; [reflexivity|]. cbn [stuffing].
    rewrite <- !app_assoc in Hin2. cbn [app] in Hin2.
    rewrite Hin2, Hout2, Hcnt2, Hcnt1, Hbuf2.
    rewrite drop_drop. rewrite !length_app, <- !app_assoc.
    repeat split; lia.
Qed.

(** [encode_slip] on a packet [p] held at the start of the input array, with
    an output array of at least [2 * length p + 1] cells: no access leaves
    an array, the output array starts with the frame of the design
    document, and the value returned is the length of that frame. *)
Lemma encode_slip_run (p post out : list Z) :
  (2 * length p + 1 <= length out)%nat ->
  encode_slip (p ++ post) out (Z.of_nat (length p))
  = Done (Encode_doc p ++ drop (length (Encode_doc p)) out,
          Z.of_nat (length (Encode_doc p))).
Proof.
  intros Hroom. unfold encode_slip. rewrite Nat2Z.id.
  destruct (encode_loop_run p [] post [] out (mk_enc 0 0 0 out))
    as (s & Hrun & _ & Hout & Hcnt & Hbuf); try reflexivity; [lia|].
  cbn [app] in Hrun, Hout, Hbuf. rewrite Hrun. cbn [and_then].
  cbn [e_count] in Hcnt.
  pose proof (length_stuffing p) as Hlen.
  destruct (drop (length (stuffing p)) out) as [|x tail] eqn:Hdrop.
  { apply (f_equal length) in Hdrop. rewrite length_drop in Hdrop.
    cbn [length] in Hdrop. lia. }
  rewrite Hbuf, (store_after (stuffing p) x tail) by assumption.
  cbn [and_then]. unfold Encode_doc. rewrite length_app. cbn [length].
  rewrite <- app_assoc. cbn [app].
  replace (drop (length (stuffing p) + 1) out) with tail.
  2:{ rewrite <- drop_drop, Hdrop. reflexivity. }
  rewrite Hcnt. f_equal. f_equal. lia.
Qed.

Lemma frame_of_encode_slip (p post out : list Z) :
  (2 * length p + 1 <= length out)%nat ->
  frame_of (encode_slip (p ++ post) out (Z.of_nat (length p)))
  = Done (Encode_doc p).
Proof.
  intros Hroom. rewrite encode_slip_run by assumption.
  unfold frame_of. cbn [and_then fst snd]. rewrite Nat2Z.id.
  rewrite take_app_length. reflexivity.
Qed.

(** ** The decoder reads the stuffed bytes back *)

Lemma map_Rd_app (a b : list Z) (rest : list rd_event) :
  map Rd (a ++ b) ++ rest = map Rd a ++ map Rd b ++ rest.
Proof. rewrite map_app, <- app_assoc. reflexivity. Qed.

(** One call of [decode_slip] on the stuffed form of a byte [b] gives [b]
    back and consumes exactly that form. *)
Lemma decode_slip_stuffed (b : Z) (rest : list rd_event) (c0 : Z)
  (said0 : list diag) :
  exists c1,
    decode_slip (mk_port (map Rd (stuffed b) ++ rest) c0 said0)
    = (b, mk_port rest c1 said0).
Proof.
  unfold stuffed.
  destruct (b =? END) eqn:E1; [|destruct (b =? ESC) eqn:E2].
  - apply Z.eqb_eq in E1. subst b. exists ESC_END. reflexivity.
  - apply Z.eqb_eq in E2. subst b. exists ESC_ESC. reflexivity.
  - exists b. unfold decode_slip. cbn [map app read chan cell said].
    change (1 =? 0) with false. cbv iota. rewrite E2, E1. reflexivity.
Qed.

(** A lone [END] at the head of the script ends the packet. *)
Lemma decode_slip_END (rest : list rd_event) (c0 : Z) (said0 : list diag) :
  decode_slip (mk_port (Rd END :: rest) c0 said0)
  = (DECODE_END_OF_PACKET, mk_port rest END said0).
Proof. reflexivity. Qed.

(** The loop of [next_slip_packet] over the stuffed form of [d], entered
    with [i] bytes already in [buf] and room for [d]: after [length d]
    passes the bytes of [d] follow them in [buf] and the loop stands at the
    rest of the stream. *)
Lemma next_slip_loop_stuffing (d : list Z) :
  forall (budget : nat) (w tail : list Z) (rest : list rd_event) (c0 : Z)
         (said0 : list diag) (i : Z),
    Forall is_byte d ->
    (length d <= length tail)%nat ->
    i = Z.of_nat (length w) ->
    exists c1,
      next_slip_loop (length d + budget)
        (mk_port (map Rd (stuffing d) ++ rest) c0 said0) (w ++ tail) i
      = next_slip_loop budget (mk_port rest c1 said0)
          ((w ++ d) ++ drop (length d) tail) (Z.of_nat (length (w ++ d))).
Proof.
  induction d as [|b d IH];
    intros budget w tail rest c0 said0 i Hbytes Hroom Hi.
  - exists c0. cbn [stuffing map app length drop Nat.add].
    rewrite !app_nil_r. subst i. reflexivity.
  - destruct tail as [|x tail]; [cbn [length] in Hroom; lia|].
    cbn [length] in Hroom.
    apply Forall_cons_iff in Hbytes. destruct Hbytes as [Hb Hbytes].
    cbn [stuffing length Nat.add next_slip_loop]. rewrite map_Rd_app.
    destruct (decode_slip_stuffed b (map Rd (stuffing d) ++ rest) c0 said0)
      as [c1 Hdec].
    rewrite Hdec. unfold is_byte in Hb.
    replace (b =? -1) with false by (symmetry; apply Z.eqb_neq; lia).
    replace (b =? DECODE_END_OF_PACKET) with false
      by (symmetry; apply Z.eqb_neq; unfold DECODE_END_OF_PACKET; lia).
    rewrite Z.mod_small by lia.
    rewrite (store_after w x tail) by assumption. cbn [and_then].
    replace (w ++ b :: tail) with ((w ++ [b]) ++ tail)
      by (rewrite <- app_assoc; reflexivity).
    destruct (IH budget (w ++ [b]) tail rest c1 said0 (i + 1)) as [c2 Hrun];
      try assumption; try lia.
    { rewrite length_app. cbn [length]. lia. }
    exists c2. rewrite Hrun. rewrite <- !app_assoc. reflexivity.
Qed.

(** The same loop when an [END] follows the stuffed form of [d]. *)
Lemma next_slip_loop_run (d : list Z) (budget : nat) (w tail : list Z)
  (rest : list rd_event) (c0 : Z) (said0 : list diag) (i : Z) :
  Forall is_byte d ->
  (length d < budget)%nat ->
  (length d <= length tail)%nat ->
  i = Z.of_nat (length w) ->
  next_slip_loop budget
    (mk_port (map Rd (stuffing d) ++ Rd END :: rest) c0 said0) (w ++ tail) i
  = Done (Z.of_nat (length (w ++ d)), (w ++ d) ++ drop (length d) tail,
          mk_port rest END said0).
Proof.
  intros Hbytes Hbudget Hroom Hi.
  replace budget with (length d + S (budget - S (length d)))%nat by lia.
  destruct (next_slip_loop_stuffing d (S (budget - S (length d))) w tail
              (Rd END :: rest) c0 said0 i Hbytes Hroom Hi) as [c1 Hrun].
  rewrite Hrun. cbn [next_slip_loop]. rewrite decode_slip_END. reflexivity.
Qed.

(** The same loop when an [ESC] and a byte that is neither [ESC_END] nor
    [ESC_ESC] follow the stuffed form of [d]. *)
Lemma next_slip_loop_bad_escape (d : list Z) (budget : nat) (w tail : list Z)
  (b : Z) (rest : list rd_event) (c0 : Z) (said0 : list diag) (i : Z) :
  Forall is_byte d ->
  (length d < budget)%nat ->
  (length d <= length tail)%nat ->
  i = Z.of_nat (length w) ->
  b <> ESC_END -> b <> ESC_ESC ->
  next_slip_loop budget
    (mk_port (map Rd (stuffing d) ++ Rd ESC :: Rd b :: rest) c0 said0)
    (w ++ tail) i
  = Done (-1, (w ++ d) ++ drop (length d) tail,
          mk_port rest b (said0 ++ [Decoding_error])).
Proof.
  intros Hbytes Hbudget Hroom Hi Hb1 Hb2.
  replace budget with (length d + S (budget - S (length d)))%nat by lia.
  destruct (next_slip_loop_stuffing d (S (budget - S (length d))) w tail
              (Rd ESC :: Rd b :: rest) c0 said0 i Hbytes Hroom Hi) as [c1 Hrun].
  rewrite Hrun. cbn [next_slip_loop]. unfold decode_slip.
  cbn [read chan cell said].
  change (1 =? 0) with false. change (ESC =? ESC) with true. cbv iota.
  apply Z.eqb_neq in Hb1, Hb2. rewrite Hb1, Hb2. reflexivity.
Qed.

(** [next_slip_packet] on a frame of the design document, followed by
    anything: it returns the length of the packet, leaves the packet at the
    start of [buf] and the rest of the stream unread. *)
Lemma next_slip_packet_Encode_doc (p : list Z) (rest : list rd_event)
  (c0 : Z) (said0 : list diag) (buf : list Z) :
  Forall is_byte p ->
  (length p <= length buf)%nat ->
  next_slip_packet (mk_port (map Rd (Encode_doc p) ++ rest) c0 said0) buf
  = Done (Z.of_nat (length p), p ++ drop (length p) buf,
          mk_port rest END said0).
Proof.
  intros Hbytes Hroom. unfold next_slip_packet, Encode_doc.
  rewrite map_Rd_app. cbn [map app chan].
  apply (next_slip_loop_run p _ [] buf rest c0 said0 0); try assumption;
    try reflexivity.
  rewrite length_app, length_map. cbn [length].
  pose proof (length_stuffing p). lia.
Qed.

(** ** The budgets of the loops are never what stops them *)

Lemma load_not_starved (a : list Z) (i : Z) : load a i <> Starved.
Proof.
  unfold load. destruct (in_bounds a i); [|discriminate].
  destruct (a !! Z.to_nat i); discriminate.
Qed.

Lemma store_not_starved (a : list Z) (i v : Z) : store a i v <> Starved.
Proof. unfold store. destruct (in_bounds a i); discriminate. Qed.

Lemma memcpy_not_starved (dst : list Z) (doff : Z) (src : list Z)
  (soff n : Z) : memcpy dst doff src soff n <> Starved.
Proof. unfold memcpy. repeat destruct (_ <? _); discriminate. Qed.

Lemma encode_loop_not_starved (inb : list Z) (n : nat) :
  forall s : enc_state, encode_loop n inb s <> Starved.
Proof.
  induction n as [|n IH]; intros s; cbn [encode_loop]; [discriminate|].
  unfold encode_body.
  pose proof (load_not_starved inb (e_in s)) as Hl.
  destruct (load inb (e_in s)) as [c| |]; cbn [and_then]; try congruence.
  destruct (c =? END); [|destruct (c =? ESC)];
    repeat match goal with
      | |- context [and_then (store ?a ?i ?v) _] =>
          let H := fresh in
          pose proof (store_not_starved a i v) as H;
          destruct (store a i v); cbn [and_then]; try congruence; clear H
      end; apply IH.
Qed.

Lemma encode_slip_not_starved (inb out : list Z) (n : Z) :
  encode_slip inb out n <> Starved.
Proof.
  unfold encode_slip.
  pose proof (encode_loop_not_starved inb (Z.to_nat n) (mk_enc 0 0 0 out)) as H.
  destruct (encode_loop _ _ _) as [s| |]; cbn [and_then]; try congruence.
  pose proof (store_not_starved (e_buf s) (e_out s) END) as H'.
  destruct (store _ _ _); cbn [and_then]; congruence.
Qed.

Lemma read_consumes (p : port) :
  (length (chan (snd (read p))) <= length (chan p))%nat
  /\ (fst (read p) <> 0 -> (length (chan (snd (read p))) < length (chan p))%nat).
Proof.
  unfold read. destruct (chan p) as [|[b| |] ch] eqn:E; cbn [fst snd chan length];
    rewrite ?E; cbn [length]; split; intros; try lia; congruence.
Qed.

(** A call of [decode_slip] that does not return -1 has consumed at least
    one event. *)
Lemma decode_slip_consumes (p : port) :
  (length (chan (snd (decode_slip p))) <= length (chan p))%nat
  /\ (fst (decode_slip p) <> -1
      -> (length (chan (snd (decode_slip p))) < length (chan p))%nat).
Proof.
  unfold decode_slip.
  destruct (read p) as [n p1] eqn:E1.
  pose proof (read_consumes p) as [Hle1 Hlt1]. rewrite E1 in Hle1, Hlt1.
  cbn [fst snd] in Hle1, Hlt1.
  destruct (n =? 0) eqn:En.
  { cbn [fst snd printf chan]. split; [assumption|congruence]. }
  apply Z.eqb_neq in En. specialize (Hlt1 En).
  destruct (cell p1 =? ESC).
  - destruct (read p1) as [n2 p2] eqn:E2.
    pose proof (read_consumes p1) as [Hle2 _]. rewrite E2 in Hle2.
    cbn [fst snd] in Hle2.
    destruct (n2 =? 0); [|destruct (cell p2 =? ESC_END);
                           [|destruct (cell p2 =? ESC_ESC)]];
      cbn [fst snd printf chan]; split; intros; lia.
  - destruct (cell p1 =? END); cbn [fst snd]; split; intros; lia.
Qed.

Lemma next_slip_loop_consumes (budget : nat) :
  forall (p : port) (buf : list Z) (i : Z),
    (length (chan p) < budget)%nat ->
    exists r,
      next_slip_loop budget p buf i = r
      /\ r <> Starved
      /\ forall n buf' p', r = Done (n, buf', p') ->
           (length (chan p') <= length (chan p))%nat
           /\ (n <> -1 -> (length (chan p') < length (chan p))%nat).
Proof.
  induction budget as [|budget IH]; intros p buf i Hbudget; [lia|].
  cbn [next_slip_loop].
  pose proof (decode_slip_consumes p) as [Hle Hlt].
  destruct (decode_slip p) as [result p1]. cbn [fst snd] in Hle, Hlt.
  destruct (result =? -1) eqn:E1.
  { eexists; split; [reflexivity|]. split; [discriminate|].
    intros n buf' p' [= <- <- <-]. split; [assumption|congruence]. }
  apply Z.eqb_neq in E1. specialize (Hlt E1).
  destruct (result =? DECODE_END_OF_PACKET).
  { eexists; split; [reflexivity|]. split; [discriminate|].
    intros n buf' p' [= <- <- <-]. split; intros; lia. }
  unfold store. destruct (in_bounds buf i); cbn [and_then].
  - destruct (IH p1 (<[Z.to_nat i := result mod 256]> buf) (i + 1))
      as (r & Hr & Hns & Hcons); [lia|].
    exists r. split; [assumption|]. split; [assumption|].
    intros n buf' p' Heq. destruct (Hcons n buf' p' Heq). split; intros; lia.
  - eexists; split; [reflexivity|]. split; discriminate.
Qed.

Lemma next_slip_packet_not_starved (p : port) (buf : list Z) :
  next_slip_packet p buf <> Starved.
Proof.
  unfold next_slip_packet.
  destruct (next_slip_loop_consumes (S (length (chan p))) p buf 0)
    as (r & Hr & Hns & _); [lia|].
  rewrite Hr. assumption.
Qed.

Lemma next_slip_packet_consumes (p : port) (buf : list Z) (n : Z)
  (buf' : list Z) (p' : port) :
  next_slip_packet p buf = Done (n, buf', p') ->
  (length (chan p') <= length (chan p))%nat
  /\ (n <> -1 -> (length (chan p') < length (chan p))%nat).
Proof.
  unfold next_slip_packet. intros H.
  destruct (next_slip_loop_consumes (S (length (chan p))) p buf 0)
    as (r & Hr & _ & Hcons); [lia|].
  apply (Hcons n buf' p'). rewrite <- Hr. assumption.
Qed.

(** The value [next_slip_packet] returns is -1 or a count of stores, so a
    negative value is -1. *)
Lemma next_slip_loop_result (budget : nat) :
  forall (p : port) (buf : list Z) (i n : Z) (buf' : list Z) (p' : port),
    0 <= i ->
    next_slip_loop budget p buf i = Done (n, buf', p') -> n = -1 \/ i <= n.
Proof.
  induction budget as [|budget IH]; intros p buf i n buf' p' Hi;
    cbn [next_slip_loop]; [discriminate|].
  destruct (decode_slip p) as [result p1].
  destruct (result =? -1); [intros [= <- <- <-]; left; reflexivity|].
  destruct (result =? DECODE_END_OF_PACKET);
    [intros [= <- <- <-]; right; lia|].
  destruct (store buf i (result mod 256)) as [b| |]; cbn [and_then];
    try discriminate.
  intros H. apply (IH p1 b (i + 1) n buf' p') in H; lia.
Qed.

Lemma rx_loop_not_starved (budget : nat) :
  forall s : rx_state,
    (length (chan (rx_port s)) < budget)%nat -> rx_loop budget s <> Starved.
Proof.
  induction budget as [|budget IH]; intros s Hbudget; [lia|].
  cbn [rx_loop]. unfold rx_body.
  pose proof (next_slip_packet_not_starved (rx_port s) (rx_c s)) as Hns.
  pose proof (next_slip_packet_consumes (rx_port s) (rx_c s)) as Hcons.
  pose proof (next_slip_loop_result (S (length (chan (rx_port s))))
                (rx_port s) (rx_c s) 0) as Hres.
  fold (next_slip_packet (rx_port s) (rx_c s)) in Hres.
  destruct (next_slip_packet (rx_port s) (rx_c s)) as [[[n c] p]| |];
    cbn [and_then]; try congruence.
  destruct (Hcons n c p eq_refl) as [Hle Hlt].
  destruct (Hres n c p ltac:(lia) eq_refl) as [Hn|Hn].
  { subst n. cbn. discriminate. }
  assert (Hlt' : (length (chan p) < length (chan (rx_port s)))%nat)
    by (apply Hlt; lia).
  replace (n <? 0) with false by (symmetry; apply Z.ltb_ge; lia).
  destruct (n <? 1); cbn [and_then].
  { apply IH. cbn [rx_port]. lia. }
  pose proof (memcpy_not_starved (rx_packet s) 4 c 0 n) as Hm.
  destruct (memcpy (rx_packet s) 4 c 0 n); cbn [and_then]; try congruence.
  apply IH. cbn [rx_port]. lia.
Qed.

Lemma tx_loop_not_starved (k : tx_stack) (budget : nat) :
  forall s : tx_state,
    (length (tx_utun s) < budget)%nat -> tx_loop budget k s <> Starved.
Proof.
  induction budget as [|budget IH]; intros s Hbudget; [lia|].
  cbn [tx_loop]. unfold tx_body.
  destruct (tx_utun s) as [|[|bytes] utun] eqn:E; cbn [read_utun].
  - cbn. discriminate.
  - cbn. discriminate.
  - cbn [length] in Hbudget.
    destruct (_ =? -1); cbn [and_then]; [discriminate|].
    match goal with
    | |- context [memcpy ?d ?x ?y ?z ?n] =>
        pose proof (memcpy_not_starved d x y z n) as Hm;
        destruct (memcpy d x y z n) as [packet| |]; cbn [and_then]; try congruence
    end.
    match goal with
    | |- context [encode_slip ?i ?o ?n] =>
        pose proof (encode_slip_not_starved i o n) as He;
        destruct (encode_slip i o n) as [[encoded m]| |]; cbn [and_then];
        try congruence
    end.
    destruct (write_serial _ _) as [[r sent] results].
    apply IH. cbn [tx_utun]. lia.
Qed.

Lemma rx_thread_not_starved (p : port) (c packet : list Z) :
  rx_thread p c packet <> Starved.
Proof.
  unfold rx_thread.
  repeat match goal with
    | |- context [and_then (store ?a ?i ?v) _] =>
        let H := fresh in
        pose proof (store_not_starved a i v) as H;
        destruct (store a i v); cbn [and_then]; try congruence; clear H
    end.
  apply rx_loop_not_starved. cbn [rx_port]. lia.
Qed.

Lemma tx_thread_not_starved (k : tx_stack) (s : tx_state) :
  tx_thread k s <> Starved.
Proof. apply tx_loop_not_starved. lia. Qed.

(** ** Round trip *)

(** C1 (round trip).  For every Network Packet [p] of at most [MTU] bytes,
    held at the start of the input array, [encode_slip] produces a frame, and
    [next_slip_packet] reading that frame from the transport (whatever
    follows it there) returns [length p] and leaves exactly [p] in the first
    [length p] cells of its buffer: Decode(Encode(p)) = p. *)
Theorem decode_encode_roundtrip (p post out buf : list Z)
  (rest : list rd_event) (c0 : Z) (said0 : list diag) :
  Forall is_byte p ->
  0 <= Z.of_nat (length p) <= MTU ->
  Z.of_nat (length out) = MAX_PACKET_SIZE_SLIP ->
  Z.of_nat (length buf) = MTU ->
  exists frame buf',
    frame_of (encode_slip (p ++ post) out (Z.of_nat (length p))) = Done frame
    /\ next_slip_packet (mk_port (map Rd frame ++ rest) c0 said0) buf
       = Done (Z.of_nat (length p), buf', mk_port rest END said0)
    /\ take (length p) buf' = p.
Proof.
  intros Hbytes Hlen Hout Hbuf.
  unfold MAX_PACKET_SIZE_SLIP, MTU in *.
  exists (Encode_doc p), (p ++ drop (length p) buf).
  split; [apply frame_of_encode_slip; lia|].
  split; [apply next_slip_packet_Encode_doc; [assumption|lia]|].
  apply take_app_length.
Qed.

(** The round trip of [0x41, 0xC0, 0xDB, 0x00, 0xFF], with a byte of the
    next frame already waiting on the transport. *)
Lemma decode_encode_roundtrip_witness :
  Forall is_byte [0x41; 0xc0; 0xdb; 0x00; 0xff]
  /\ exists buf',
       next_slip_packet
         (mk_port (map Rd [0x41; 0xdb; 0xdc; 0xdb; 0xdd; 0x00; 0xff; 0xc0]
                     ++ [Rd 0x07]) 0 [])
         (repeat 0 (Z.to_nat MTU))
       = Done (5, buf', mk_port [Rd 0x07] END [])
       /\ take 5 buf' = [0x41; 0xc0; 0xdb; 0x00; 0xff].
Proof.
  assert (Hb : Forall is_byte [0x41; 0xc0; 0xdb; 0x00; 0xff])
    by (repeat constructor; unfold is_byte; lia).
  split; [exact Hb|].
  destruct (decode_encode_roundtrip [0x41; 0xc0; 0xdb; 0x00; 0xff] []
              (repeat 0 (Z.to_nat MAX_PACKET_SIZE_SLIP))
              (repeat 0 (Z.to_nat MTU)) [Rd 0x07] 0 [] Hb)
    as (frame & buf' & Hframe & Hdec & Htake).
  - cbn. unfold MTU. lia.
  - vm_compute. reflexivity.
  - vm_compute. reflexivity.
  - exists buf'. split; [|exact Htake].
    vm_compute in Hframe. injection Hframe as <-. exact Hdec.
Defined.

(** ** The encoder: totality, length, fixed examples *)




(** C7 (fixed encodings).  Whatever the arrays held before,
    Encode([0xC0]) = [0xDB, 0xDC, 0xC0], Encode([0xDB]) = [0xDB, 0xDD, 0xC0],
    Encode([]) = [0xC0] and
    Encode([0x41, 0xC0, 0x42]) = [0x41, 0xDB, 0xDC, 0x42, 0xC0]. *)
Theorem encode_slip_examples (post out : list Z) :
  Z.of_nat (length out) = MAX_PACKET_SIZE_SLIP ->
  frame_of (encode_slip ([0xC0] ++ post) out 1) = Done [0xDB; 0xDC; 0xC0]
  /\ frame_of (encode_slip ([0xDB] ++ post) out 1) = Done [0xDB; 0xDD; 0xC0]
  /\ frame_of (encode_slip ([] ++ post) out 0) = Done [0xC0]
  /\ frame_of (encode_slip ([0x41; 0xC0; 0x42] ++ post) out 3)
     = Done [0x41; 0xDB; 0xDC; 0x42; 0xC0].
Proof.
  intros Hout. unfold MAX_PACKET_SIZE_SLIP, MTU in Hout.
  repeat split.
  - apply (frame_of_encode_slip [0xC0] post out). cbn [length]. lia.
  - apply (frame_of_encode_slip [0xDB] post out). cbn [length]. lia.
  - apply (frame_of_encode_slip [] post out). cbn [length]. lia.
  - apply (frame_of_encode_slip [0x41; 0xC0; 0x42] post out). cbn [length]. lia.
Qed.

(** The fourth example, into an output array filled with [0x55]. *)
Lemma encode_slip_examples_witness :
  Z.of_nat (length (repeat 0x55 (Z.to_nat MAX_PACKET_SIZE_SLIP)))
  = MAX_PACKET_SIZE_SLIP
  /\ frame_of (encode_slip [0x41; 0xC0; 0x42]
                 (repeat 0x55 (Z.to_nat MAX_PACKET_SIZE_SLIP)) 3)
     = Done [0x41; 0xDB; 0xDC; 0x42; 0xC0].
Proof.
  assert (H : Z.of_nat (length (repeat 0x55 (Z.to_nat MAX_PACKET_SIZE_SLIP)))
              = MAX_PACKET_SIZE_SLIP) by (vm_compute; reflexivity).
  split; [exact H|].
  exact (proj2 (proj2 (proj2 (encode_slip_examples [] _ H)))).
Defined.

(** ** The inbound pump over a stream of well-formed frames *)

(** One pass over the frame of a packet [f] that fits: an empty packet is
    passed over, any other is wrapped and handed to the tunnel. *)
Lemma rx_body_frame (f : list Z) (rest : list rd_event) (c0 : Z)
  (said0 : list diag) (c packet : list Z) (utun : list (list Z)) :
  fits f -> rx_arrays c packet ->
  exists c' packet',
    rx_body (mk_rx (mk_port (map Rd (Encode_doc f) ++ rest) c0 said0)
               c packet utun)
    = Done (Continue (mk_rx (mk_port rest END said0) c' packet'
                        (utun ++ forwarded [f])))
    /\ rx_arrays c' packet'.
Proof.
  intros [Hbytes Hlen] (Hc & Hpacket & Hhead).
  unfold MAX_PACKET_SIZE, NULL_LOOPBACK_HEADER_SIZE, MTU in *.
  unfold rx_body. cbn [rx_port rx_c rx_packet rx_utun].
  rewrite next_slip_packet_Encode_doc by (try assumption; lia).
  cbn [and_then].
  destruct f as [|b f].
  - exists c, packet. cbn [length drop app forwarded]. rewrite app_nil_r.
    split; [reflexivity|]. repeat split; assumption.
  - set (g := b :: f) in *.
    assert (Hg : (1 <= length g)%nat) by (cbn [g length]; lia).
    replace (Z.of_nat (length g) <? 0) with false
      by (symmetry; apply Z.ltb_ge; lia).
    replace (Z.of_nat (length g) <? 1) with false
      by (symmetry; apply Z.ltb_ge; lia).
    unfold memcpy.
    replace (Z.of_nat (length g) <? 0) with false
      by (symmetry; apply Z.ltb_ge; lia).
    rewrite length_app, length_drop.
    replace (Z.of_nat (length g + (length c - length g))
             <? 0 + Z.of_nat (length g)) with false
      by (symmetry; apply Z.ltb_ge; lia).
    replace (Z.of_nat (length packet) <? 4 + Z.of_nat (length g)) with false
      by (symmetry; apply Z.ltb_ge; lia).
    cbn [and_then]. change (Z.to_nat 0) with 0%nat. change (Z.to_nat 4) with 4%nat.
    rewrite Nat2Z.id, drop_0, take_app_length, Hhead.
    replace (Z.to_nat (Z.of_nat (length g) + 4)) with (4 + length g)%nat by lia.
    replace (Z.to_nat (4 + Z.of_nat (length g))) with (4 + length g)%nat by lia.
    exists (g ++ drop (length g) c),
      ([0; 0; 0; AF_INET] ++ g ++ drop (4 + length g) packet).
    split.
    + do 3 f_equal. change (forwarded [g]) with [Wrap_doc g].
      do 2 f_equal. unfold Wrap_doc.
      rewrite (app_assoc [0; 0; 0; AF_INET] g).
      rewrite take_app_length' by (rewrite length_app; cbn [length]; lia).
      reflexivity.
    + unfold rx_arrays, MAX_PACKET_SIZE, NULL_LOOPBACK_HEADER_SIZE, MTU.
      rewrite !length_app, !length_drop. cbn [length].
      repeat split; try lia.
Qed.

Lemma forwarded_cons (f : list Z) (packets : list (list Z)) :
  forwarded (f :: packets) = forwarded [f] ++ forwarded packets.
Proof. destruct f; reflexivity. Qed.

(** The loop of [rx_thread] over the frames of packets that fit: one pass
    per frame, after which the wrapped packets have gone to the tunnel and
    the loop stands at the rest of the stream. *)
Lemma rx_loop_frames (packets : list (list Z)) :
  forall (budget : nat) (rest : list rd_event) (c0 : Z) (said0 : list diag)
         (c packet : list Z) (utun : list (list Z)),
    Forall fits packets -> rx_arrays c packet ->
    exists c1 c' packet',
      rx_loop (length packets + budget)
        (mk_rx (mk_port (stream_of packets ++ rest) c0 said0) c packet utun)
      = rx_loop budget
          (mk_rx (mk_port rest c1 said0) c' packet'
             (utun ++ forwarded packets))
      /\ rx_arrays c' packet'.
Proof.
  induction packets as [|f packets IH];
    intros budget rest c0 said0 c packet utun Hfit Harr.
  - exists c0, c, packet. cbn [stream_of app length Nat.add forwarded].
    rewrite app_nil_r. split; [reflexivity|assumption].
  - apply Forall_cons_iff in Hfit. destruct Hfit as [Hf Hfit].
    cbn [stream_of length Nat.add rx_loop]. rewrite <- app_assoc.
    destruct (rx_body_frame f (stream_of packets ++ rest) c0 said0 c packet
                utun Hf Harr) as (c' & packet' & Hrun & Harr').
    rewrite Hrun. cbn [and_then].
    destruct (IH budget rest END said0 c' packet' (utun ++ forwarded [f])
                Hfit Harr') as (c1 & c'' & packet'' & Hloop & Harr'').
    exists c1, c'', packet''. rewrite Hloop.
    rewrite (forwarded_cons f packets), app_assoc.
    split; [reflexivity|assumption].
Qed.

Lemma length_stream_of (packets : list (list Z)) :
  (length packets <= length (stream_of packets))%nat.
Proof.
  induction packets as [|f packets IH]; cbn [stream_of length]; [lia|].
  rewrite length_app, length_map. pose proof (length_Encode_doc f). lia.
Qed.

(** [rx_thread] puts the header in place. *)
Lemma rx_thread_unfold (p : port) (c packet : list Z) :
  Z.of_nat (length c) = MTU ->
  Z.of_nat (length packet) = MAX_PACKET_SIZE ->
  exists pk,
    rx_thread p c packet = rx_loop (S (length (chan p))) (mk_rx p c pk [])
    /\ rx_arrays c pk.
Proof.
  unfold MAX_PACKET_SIZE, NULL_LOOPBACK_HEADER_SIZE, MTU. intros Hc Hpacket.
  destruct packet as [|x0 [|x1 [|x2 [|x3 packet]]]];
    cbn [length] in Hpacket; try lia.
  exists (0 :: 0 :: 0 :: AF_INET :: packet). split.
  { unfold rx_thread.
    pose proof (store_after [] x0 (x1 :: x2 :: x3 :: packet) 0 0 eq_refl) as H0.
    pose proof (store_after [0] x1 (x2 :: x3 :: packet) 1 0 eq_refl) as H1.
    pose proof (store_after [0; 0] x2 (x3 :: packet) 2 0 eq_refl) as H2.
    pose proof (store_after [0; 0; 0] x3 packet 3 AF_INET eq_refl) as H3.
    cbn [app] in H0, H1, H2, H3.
    rewrite H0. cbn [and_then]. rewrite H1. cbn [and_then]. rewrite H2. cbn [and_then].
    rewrite H3. reflexivity. }
  unfold rx_arrays, MAX_PACKET_SIZE, NULL_LOOPBACK_HEADER_SIZE, MTU.
  cbn [length]. repeat split; try assumption; lia.
Qed.

(** The inbound pump on a stream of frames of packets that fit, after which
    the stream ends: it forwards the wrapped packets, the empty ones left
    out, reports the end of the stream and returns. *)
Lemma rx_thread_stream (packets : list (list Z)) (c0 : Z)
  (said0 : list diag) (c packet : list Z) :
  Forall fits packets ->
  Z.of_nat (length c) = MTU ->
  Z.of_nat (length packet) = MAX_PACKET_SIZE ->
  exists c1 c' packet',
    rx_thread (mk_port (stream_of packets) c0 said0) c packet
    = Done (mk_rx (mk_port [] c1 (said0 ++ [Read_error])) c' packet'
              (forwarded packets)).
Proof.
  intros Hfit Hc Hpacket.
  destruct (rx_thread_unfold (mk_port (stream_of packets) c0 said0) c packet
              Hc Hpacket) as (pk & Hrun & Harr).
  rewrite Hrun. cbn [chan].
  pose proof (length_stream_of packets) as Hn.
  replace (S (length (stream_of packets)))
    with (length packets + S (length (stream_of packets) - length packets))%nat
    by lia.
  destruct (rx_loop_frames packets
              (S (length (stream_of packets) - length packets))
              [] c0 said0 c pk [] Hfit Harr)
    as (c1 & c' & packet' & Hloop & _).
  rewrite app_nil_r in Hloop. rewrite Hloop.
  exists c1, c', packet'. reflexivity.
Qed.

(** ** The decoder: undefined escapes, empty frames *)

(** One pass of the inbound pump over the stuffed form of data [d] that
    fits the buffer, followed by [ESC] and a byte that is neither [ESC_END]
    nor [ESC_ESC]. *)
Lemma rx_body_bad_escape (b : Z) (d : list Z) (rest : list rd_event)
  (c0 : Z) (said0 : list diag) (c packet : list Z) (utun : list (list Z)) :
  b <> ESC_END -> b <> ESC_ESC ->
  Forall is_byte d -> (length d <= length c)%nat ->
  let p := mk_port (map Rd (stuffing d) ++ Rd ESC :: Rd b :: rest) c0 said0 in
  let p' := mk_port rest b (said0 ++ [Decoding_error]) in
  next_slip_packet p c = Done (-1, d ++ drop (length d) c, p')
  /\ rx_body (mk_rx p c packet utun)
     = Done (Return (mk_rx p' (d ++ drop (length d) c) packet utun)).
Proof.
  intros Hb1 Hb2 Hbytes Hroom p p'.
  assert (Hnsp : next_slip_packet p c = Done (-1, d ++ drop (length d) c, p')).
  { unfold next_slip_packet, p, p'. cbn [chan].
    apply (next_slip_loop_bad_escape d _ [] c b rest c0 said0 0);
      try assumption; try reflexivity.
    rewrite length_app, length_map. cbn [length].
    pose proof (length_stuffing d). lia. }
  split; [exact Hnsp|].
  unfold rx_body. cbn [rx_port rx_c]. rewrite Hnsp. reflexivity.
Qed.

(** C4 (undefined escape).  When [decode_slip] reads [ESC] and then a byte
    [b] that is neither [ESC_END] nor [ESC_ESC] it prints the decoding-error
    line and returns -1.  Inside [next_slip_packet], after the stuffed form
    of any data [d] that fits the buffer, the same two bytes make it return
    -1 with nothing stored for them.  And on any stream made of frames of
    packets that fit, then such data, then the two bytes, the inbound pump
    returns at the second of them, having forwarded the packets of the
    whole frames and nothing else. *)
Theorem undefined_escape_is_decode_error (b : Z) (packets : list (list Z))
  (d : list Z) (rest : list rd_event) (c0 : Z) (said0 : list diag)
  (c packet : list Z) :
  b <> ESC_END -> b <> ESC_ESC ->
  Forall fits packets -> fits d ->
  Z.of_nat (length c) = MTU ->
  Z.of_nat (length packet) = MAX_PACKET_SIZE ->
  let tail := map Rd (stuffing d) ++ Rd ESC :: Rd b :: rest in
  let p' := mk_port rest b (said0 ++ [Decoding_error]) in
  decode_slip (mk_port (Rd ESC :: Rd b :: rest) c0 said0) = (-1, p')
  /\ next_slip_packet (mk_port tail c0 said0) c
     = Done (-1, d ++ drop (length d) c, p')
  /\ exists c' packet',
       rx_thread (mk_port (stream_of packets ++ tail) c0 said0) c packet
       = Done (mk_rx p' c' packet' (forwarded packets)).
Proof.
  intros Hb1 Hb2 Hfit [Hbytes Hlen] Hc Hpacket tail p'.
  split; [|split].
  - unfold decode_slip, p'. cbn [read chan cell said].
    change (1 =? 0) with false. change (ESC =? ESC) with true. cbv iota.
    apply Z.eqb_neq in Hb1, Hb2. rewrite Hb1, Hb2. reflexivity.
  - apply (rx_body_bad_escape b d rest c0 said0 c [] []); try assumption. lia.
  - destruct (rx_thread_unfold (mk_port (stream_of packets ++ tail) c0 said0)
                c packet Hc Hpacket) as (pk & Hrun & Harr).
    rewrite Hrun. cbn [chan].
    pose proof (length_stream_of packets) as Hn.
    replace (S (length (stream_of packets ++ tail)))
      with (length packets
            + S (length (stream_of packets ++ tail) - length packets))%nat
      by (rewrite length_app; lia).
    destruct (rx_loop_frames packets
                (S (length (stream_of packets ++ tail) - length packets))
                tail c0 said0 c pk [] Hfit Harr)
      as (c1 & c' & packet' & Hloop & (Hc' & _ & _)).
    rewrite Hloop. cbn [rx_loop app].
    destruct (rx_body_bad_escape b d rest c1 said0 c' packet'
                (forwarded packets) Hb1 Hb2 Hbytes) as [_ Hbody]; [lia|].
    fold tail in Hbody. rewrite Hbody. cbn [and_then].
    eexists _, _. reflexivity.
Qed.

(** The example of the design document: [0xDB, 0x01, 0xC0]. *)
Lemma undefined_escape_is_decode_error_witness :
  0x01 <> ESC_END /\ 0x01 <> ESC_ESC
  /\ next_slip_packet (mk_port [Rd 0xDB; Rd 0x01; Rd 0xC0] 0 [])
       (repeat 0 (Z.to_nat MTU))
     = Done (-1, repeat 0 (Z.to_nat MTU),
             mk_port [Rd 0xC0] 0x01 [Decoding_error]).
Proof.
  assert (H1 : 0x01 <> ESC_END) by (unfold ESC_END; lia).
  assert (H2 : 0x01 <> ESC_ESC) by (unfold ESC_ESC; lia).
  split; [exact H1|]. split; [exact H2|].
  refine (proj1 (proj2 (undefined_escape_is_decode_error 0x01 [] [] [Rd 0xC0]
                          0 [] (repeat 0 (Z.to_nat MTU))
                          (repeat 0 (Z.to_nat MAX_PACKET_SIZE)) H1 H2
                          (proj2 (Forall_nil fits) I) _ eq_refl eq_refl))).
  split; [exact (proj2 (Forall_nil is_byte) I)|]. unfold MTU. cbn. lia.
Defined.

(** C8 (empty frame).  When the next byte on the transport is [END] with no
    data byte before it in the current frame, the pass of the inbound pump
    hands nothing to the tunnel and goes round again; the pump as a whole
    behaves as if that byte had not been there, and on a stream that holds
    only that byte it forwards nothing at all. *)
Theorem rx_lone_END_not_forwarded (rest : list rd_event) (c0 : Z)
  (said0 : list diag) (c packet : list Z) (utun : list (list Z)) :
  rx_body (mk_rx (mk_port (Rd END :: rest) c0 said0) c packet utun)
  = Done (Continue (mk_rx (mk_port rest END said0) c packet utun))
  /\ rx_thread (mk_port (Rd END :: rest) c0 said0) c packet
     = rx_thread (mk_port rest END said0) c packet
  /\ (exists s, rx_thread (mk_port [Rd END] c0 said0)
                  (repeat 0 (Z.to_nat MTU))
                  (repeat 0 (Z.to_nat MAX_PACKET_SIZE)) = Done s
                /\ rx_utun s = []).
Proof.
  assert (Hbody : forall c packet utun,
             rx_body (mk_rx (mk_port (Rd END :: rest) c0 said0) c packet utun)
             = Done (Continue (mk_rx (mk_port rest END said0) c packet utun))).
  { intros c' packet' utun'. unfold rx_body, next_slip_packet.
    cbn [rx_port rx_c chan length next_slip_loop].
    rewrite decode_slip_END. reflexivity. }
  split; [apply Hbody|]. split.
  - unfold rx_thread.
    destruct (store packet 0 0) as [pk0| |]; cbn [and_then];
      [|reflexivity|reflexivity].
    destruct (store pk0 1 0) as [pk1| |]; cbn [and_then];
      [|reflexivity|reflexivity].
    destruct (store pk1 2 0) as [pk2| |]; cbn [and_then];
      [|reflexivity|reflexivity].
    destruct (store pk2 3 AF_INET) as [pk3| |]; cbn [and_then];
      [|reflexivity|reflexivity].
    cbn [chan length]. cbn [rx_loop]. rewrite Hbody. reflexivity.
  - eexists. split; [vm_compute; reflexivity|reflexivity].
Qed.

(** ** Where the program leaves the design document *)

(** C2 (decoder stays inside its buffer): evaluation at a failing input.
    On a frame of [MTU + 1] plain bytes followed by [END],
    [next_slip_packet] stores at index [MTU] of a buffer of [MTU] cells: the
    loop has no test of [i] against the size of [buf]. *)
Theorem next_slip_packet_overruns_buf :
  next_slip_packet
    (mk_port (repeat (Rd 0x41) (Z.to_nat (MTU + 1)) ++ [Rd END]) 0 [])
    (repeat 0 (Z.to_nat MTU))
  = Undefined (StoreOutside MTU).
Proof. vm_compute. reflexivity. Qed.

(** C3 (read failures): evaluation at a failing input.  When [read] returns
    -1 the test [!read(...)] does not hold, so [decode_slip] goes on with
    the byte its local [c] happens to hold: it prints nothing and returns
    that byte as data, exactly as if the byte had been read.  In the pump, a
    failed read after the byte [0x41]
    yields a second [0x41], and the frame [0x41, 0x41] is forwarded to the
    tunnel. *)
Theorem decode_slip_takes_failed_read_as_data :
  decode_slip (mk_port [Fail] 0x41 []) = (0x41, mk_port [] 0x41 [])
  /\ (forall (c0 : Z) (rest : list rd_event) (said0 : list diag),
        decode_slip (mk_port (Fail :: rest) c0 said0)
        = decode_slip (mk_port (Rd c0 :: rest) c0 said0))
  /\ rx_body (mk_rx (mk_port [Rd 0x41; Fail; Rd END] 0 [])
                (repeat 0 (Z.to_nat MTU))
                ([0; 0; 0; AF_INET] ++ repeat 0 (Z.to_nat MTU)) [])
     = Done (Continue
               (mk_rx (mk_port [] END [])
                  ([0x41; 0x41] ++ repeat 0 (Z.to_nat (MTU - 2)))
                  ([0; 0; 0; AF_INET; 0x41; 0x41]
                     ++ repeat 0 (Z.to_nat (MTU - 2)))
                  [[0; 0; 0; AF_INET; 0x41; 0x41]])).
Proof.
  split; [vm_compute; reflexivity|].
  split; [reflexivity|vm_compute; reflexivity].
Qed.

(** C5 (reconnection never ends the process): evaluation at a failing
    input.  With [error_is_fatal = 0] and the socket-server transport, a
    failing [bind] (likewise [socket] or [listen]) ends the process with
    [exit(-1)] inside [open_unix_domain_socket_as_server], and so does a
    failing [socket] with the socket-client transport; the hardware
    transport, and a failing [connect] or [accept], are retried. *)
Theorem connect_device_exits_on_reconnect (baud : Z)
  (attempts : list syscalls) :
  connect_device DEVICE_TYPE_SOCKET_SERVER
    (mk_sys 0 0 0 0 3 0 (-1) 0 0 :: attempts) baud 0 = Exited (-1)
  /\ connect_device DEVICE_TYPE_SOCKET_SERVER
       (mk_sys 0 0 0 0 3 0 0 (-1) 0 :: attempts) baud 0 = Exited (-1)
  /\ connect_device DEVICE_TYPE_SOCKET_SERVER
       (mk_sys 0 0 0 0 (-1) 0 0 0 0 :: attempts) baud 0 = Exited (-1)
  /\ connect_device DEVICE_TYPE_SOCKET_CLIENT
       (mk_sys 0 0 0 0 (-1) 0 0 0 0 :: attempts) baud 0 = Exited (-1)
  /\ connect_device DEVICE_TYPE_SOCKET_SERVER
       (mk_sys 0 0 0 0 3 0 0 0 (-1) :: attempts) baud 0
     = connect_device DEVICE_TYPE_SOCKET_SERVER attempts baud 0
  /\ connect_device DEVICE_TYPE_SOCKET_CLIENT
       (mk_sys 0 0 0 0 3 (-1) 0 0 0 :: attempts) baud 0
     = connect_device DEVICE_TYPE_SOCKET_CLIENT attempts baud 0
  /\ connect_device DEVICE_TYPE_HARDWARE
       (mk_sys (-1) 0 0 0 0 0 0 0 0 :: attempts) baud 0
     = connect_device DEVICE_TYPE_HARDWARE attempts baud 0.
Proof. repeat split. Qed.

(** C10 (short reads from the tunnel): evaluation at a failing input.  A
    read of fewer than 4 bytes (here none, and two) is not -1, so the pump
    does not return: it goes on to [len -= 4] and passes the negative
    length to [memcpy]. *)
Theorem tx_body_short_read_not_fatal (s : tx_state) (utun : list tun_event) :
  tx_body blank_stack
    (mk_tx (TunFrame [] :: utun) (tx_results s) (tx_calls s) (tx_wire s))
  = Undefined (NegativeCount (-4))
  /\ tx_body blank_stack
       (mk_tx (TunFrame [0; 0] :: utun) (tx_results s) (tx_calls s)
          (tx_wire s))
     = Undefined (NegativeCount (-2))
  /\ tx_body blank_stack
       (mk_tx (TunFail :: utun) (tx_results s) (tx_calls s) (tx_wire s))
     = Done (Return (mk_tx utun (tx_results s) (tx_calls s) (tx_wire s))).
Proof. repeat split. Qed.

(** ** The outbound pump: one write per frame *)

(** [memcpy(packet, &c[4], len)] after a read of [bytes], at least 4 of
    them: the packet array starts with [bytes] less its header. *)
Lemma memcpy_strip (packet bytes junk : list Z) :
  (4 <= length bytes)%nat ->
  (length bytes - 4 <= length packet)%nat ->
  memcpy packet 0 (bytes ++ junk) 4 (Z.of_nat (length bytes) - 4)
  = Done (drop 4 bytes ++ drop (length bytes - 4) packet).
Proof.
  intros H4 Hroom. unfold memcpy.
  replace (Z.of_nat (length bytes) - 4 <? 0) with false
    by (symmetry; apply Z.ltb_ge; lia).
  rewrite length_app.
  replace (Z.of_nat (length bytes + length junk)
           <? 4 + (Z.of_nat (length bytes) - 4)) with false
    by (symmetry; apply Z.ltb_ge; lia).
  replace (Z.of_nat (length packet) <? 0 + (Z.of_nat (length bytes) - 4))
    with false by (symmetry; apply Z.ltb_ge; lia).
  replace (Z.to_nat (0 + (Z.of_nat (length bytes) - 4)))
    with (length bytes - 4)%nat by lia.
  replace (Z.to_nat (Z.of_nat (length bytes) - 4))
    with (length bytes - 4)%nat by lia.
  change (Z.to_nat 0) with 0%nat. change (Z.to_nat 4) with 4%nat.
  cbn [take app]. rewrite drop_app_le by lia.
  rewrite take_app_length' by (rewrite length_drop; lia).
  reflexivity.
Qed.

(** C9 as stated fails: with a tunnel frame carrying the packet
    [0x41, 0x42] and a transport whose [write] takes one byte, the pass
    hands [0x41, 0x42, 0xC0] to [write] once, one byte goes out, no write
    has failed, and the pump goes on to the next frame. *)
Lemma partial_write_not_retried :
  ~ written_in_full_or_failed blank_stack
      (mk_tx [TunFrame [0; 0; 0; AF_INET; 0x41; 0x42]] [1] [] []).
Proof.
  intros H.
  assert (Hrun :
    tx_body blank_stack
      (mk_tx [TunFrame [0; 0; 0; AF_INET; 0x41; 0x42]] [1] [] [])
    = Done (Continue (mk_tx [] [] [[0x41; 0x42; 0xC0]] [0x41])))
    by (vm_compute; reflexivity).
  destruct (H _ [0x41; 0x42; 0xC0] Hrun eq_refl) as [Hw|(r & Hin & Hneg)].
  - discriminate Hw.
  - destruct Hin as [<-|[]]. lia.
Qed.

(** C9 as amended.  A pass of the outbound pump that reads a Link Frame of
    4 to [MTU + 4] bytes hands the encoded Transport Frame to the transport
    in one [write] and does not look at what [write] returns: whatever
    value [write] returns (the length of the frame, a smaller count after a
    short write, or -1), what the transport took of the frame is all that
    goes out, nothing is retried, and the pump continues with the next
    frame.  The statement is about a [write] that returns; a process ended
    by [SIGPIPE] inside [write] is not covered by it. *)
Theorem tx_body_single_write (k : tx_stack) (s : tx_state) (bytes : list Z)
  (utun : list tun_event) :
  Z.of_nat (length (k_c k)) = MAX_PACKET_SIZE ->
  Z.of_nat (length (k_packet k)) = MTU ->
  Z.of_nat (length (k_encoded k)) = MAX_PACKET_SIZE_SLIP ->
  tx_utun s = TunFrame bytes :: utun ->
  4 <= Z.of_nat (length bytes) <= MAX_PACKET_SIZE ->
  tx_body k s
  = Done (Continue
            (mk_tx utun (tl (tx_results s))
               (tx_calls s ++ [Encode_doc (drop 4 bytes)])
               (tx_wire s ++ taken (tx_results s) (Encode_doc (drop 4 bytes))))).
Proof.
  unfold MAX_PACKET_SIZE_SLIP, MAX_PACKET_SIZE, NULL_LOOPBACK_HEADER_SIZE, MTU.
  intros Hc Hpacket Hencoded Hutun Hlen.
  unfold tx_body. rewrite Hutun. cbn [read_utun].
  unfold MAX_PACKET_SIZE, NULL_LOOPBACK_HEADER_SIZE, MTU.
  rewrite take_ge by lia.
  replace (Z.of_nat (length bytes) =? -1) with false
    by (symmetry; apply Z.eqb_neq; lia).
  rewrite memcpy_strip by lia. cbn [and_then].
  replace (Z.of_nat (length bytes) - 4)
    with (Z.of_nat (length (drop 4 bytes))) by (rewrite length_drop; lia).
  rewrite encode_slip_run by (rewrite length_drop; lia). cbn [and_then].
  rewrite Nat2Z.id, take_app_length.
  unfold write_serial, taken.
  destruct (tx_results s) as [|r results]; [reflexivity|].
  destruct (r <? 0); reflexivity.
Qed.

(** A frame carrying [0x41, 0xDB] when the transport takes two bytes of the
    four: [0x41, 0xDB] goes out, the pump continues. *)
Lemma tx_body_single_write_witness :
  4 <= Z.of_nat (length [0; 0; 0; AF_INET; 0x41; 0xDB]) <= MAX_PACKET_SIZE
  /\ tx_body blank_stack
       (mk_tx [TunFrame [0; 0; 0; AF_INET; 0x41; 0xDB]; TunFail] [2; -1] [] [])
     = Done (Continue
               (mk_tx [TunFail] [-1] [[0x41; 0xDB; 0xDD; 0xC0]] [0x41; 0xDB])).
Proof.
  assert (H : 4 <= Z.of_nat (length [0; 0; 0; AF_INET; 0x41; 0xDB])
              <= MAX_PACKET_SIZE) by (vm_compute; split; discriminate).
  split; [exact H|].
  exact (tx_body_single_write blank_stack
           (mk_tx [TunFrame [0; 0; 0; AF_INET; 0x41; 0xDB]; TunFail] [2; -1]
              [] [])
           [0; 0; 0; AF_INET; 0x41; 0xDB] [TunFail]
           eq_refl eq_refl eq_refl eq_refl H).
Defined.

(** * Further properties of the program *)

(** ** The inbound pump on streams that end *)

(** The loop of [next_slip_packet] when the stream stops after the stuffed
    form of [d]: the read that finds nothing is reported and -1 returned. *)
Lemma next_slip_loop_cut (d : list Z) (budget : nat) (w tail : list Z)
  (ending rest : list rd_event) (c0 : Z) (said0 : list diag) (i : Z) :
  Forall is_byte d ->
  (length d < budget)%nat ->
  (length d <= length tail)%nat ->
  i = Z.of_nat (length w) ->
  cut_short ending rest ->
  exists c1,
    next_slip_loop budget
      (mk_port (map Rd (stuffing d) ++ ending) c0 said0) (w ++ tail) i
    = Done (-1, (w ++ d) ++ drop (length d) tail,
            mk_port rest c1 (said0 ++ [Read_error])).
Proof.
  intros Hbytes Hbudget Hroom Hi Hcut.
  replace budget with (length d + S (budget - S (length d)))%nat by lia.
  destruct (next_slip_loop_stuffing d (S (budget - S (length d))) w tail
              ending c0 said0 i Hbytes Hroom Hi) as [c1 Hrun].
  rewrite Hrun. destruct Hcut; eexists; reflexivity.
Qed.


(** X1 (streams that end).  On a transport stream that carries the frames
    of packets that fit, then the beginning of one more frame, and stops
    there, [rx_thread] forwards the packets of the whole frames (wrapped,
    in order, the empty ones left out), forwards nothing of the unfinished
    frame, prints the read-error line once and returns. *)
Theorem rx_thread_stream_cut_short (packets : list (list Z)) (d : list Z)
  (ending rest : list rd_event) (c0 : Z) (said0 : list diag)
  (c packet : list Z) :
  Forall fits packets -> fits d -> cut_short ending rest ->
  Z.of_nat (length c) = MTU ->
  Z.of_nat (length packet) = MAX_PACKET_SIZE ->
  exists c1 c' packet',
    rx_thread
      (mk_port (stream_of packets ++ map Rd (stuffing d) ++ ending) c0 said0)
      c packet
    = Done (mk_rx (mk_port rest c1 (said0 ++ [Read_error])) c' packet'
              (forwarded packets)).
Proof.
  intros Hfit [Hbytes Hlen] Hcut Hc Hpacket.
  set (tail := map Rd (stuffing d) ++ ending).
  destruct (rx_thread_unfold (mk_port (stream_of packets ++ tail) c0 said0)
              c packet Hc Hpacket) as (pk & Hrun & Harr).
  rewrite Hrun. cbn [chan].
  pose proof (length_stream_of packets) as Hn.
  replace (S (length (stream_of packets ++ tail)))
    with (length packets
          + S (length (stream_of packets ++ tail) - length packets))%nat
    by (rewrite length_app; lia).
  destruct (rx_loop_frames packets
              (S (length (stream_of packets ++ tail) - length packets))
              tail c0 said0 c pk [] Hfit Harr)
    as (c1 & c' & packet' & Hloop & (Hc' & _ & _)).
  rewrite Hloop. cbn [rx_loop app]. unfold rx_body, next_slip_packet.
  cbn [rx_port rx_c chan].
  destruct (next_slip_loop_cut d (S (length tail)) [] c' ending rest c1 said0 0)
    as [c2 Hcutrun]; try assumption; try reflexivity.
  { unfold tail. rewrite length_app, length_map.
    pose proof (length_stuffing d). lia. }
  { unfold MTU in *. lia. }
  fold tail in Hcutrun. cbn [app] in Hcutrun. rewrite Hcutrun.
  cbn [and_then app].
  eexists _, _, _. reflexivity.
Qed.

(** Two frames, one of them empty, then two bytes of a third. *)
Lemma rx_thread_stream_cut_short_witness :
  Forall fits [[0x45; 0xc0]; []; [0xdb]]
  /\ exists c1 c' packet',
       rx_thread
         (mk_port (map Rd [0x45; 0xdb; 0xdc; 0xc0; 0xc0; 0xdb; 0xdd; 0xc0;
                           0x01; 0x02]) 0 [])
         (repeat 0 (Z.to_nat MTU)) (repeat 0 (Z.to_nat MAX_PACKET_SIZE))
       = Done (mk_rx (mk_port [] c1 [Read_error]) c' packet'
                 [[0; 0; 0; AF_INET; 0x45; 0xc0]; [0; 0; 0; AF_INET; 0xdb]]).
Proof.
  assert (Hfit : Forall fits [[0x45; 0xc0]; []; [0xdb]]).
  { repeat constructor; unfold is_byte, MTU; cbn; lia. }
  assert (Hd : fits [0x01; 0x02]).
  { repeat constructor; unfold is_byte, MTU; cbn; lia. }
  split; [exact Hfit|].
  exact (rx_thread_stream_cut_short [[0x45; 0xc0]; []; [0xdb]] [0x01; 0x02]
           [] [] 0 [] (repeat 0 (Z.to_nat MTU))
           (repeat 0 (Z.to_nat MAX_PACKET_SIZE)) Hfit Hd cut_here
           eq_refl eq_refl).
Defined.

(** ** The decoder and the size of its buffer *)

Lemma stuffing_app (a b : list Z) :
  stuffing (a ++ b) = stuffing a ++ stuffing b.
Proof.
  induction a as [|x a IH]; [reflexivity|].
  cbn [app stuffing]. rewrite IH, app_assoc. reflexivity.
Qed.

(** X2 (buffer overrun in general).  Whenever the stream begins with the
    stuffed form of more data bytes than [buf] has cells, whatever follows,
    [next_slip_packet] fills [buf] and then stores at the first index past
    its end: nothing in the loop stops it at the size of the buffer. *)
Theorem next_slip_packet_stores_past_buf (d : list Z) (rest : list rd_event)
  (c0 : Z) (said0 : list diag) (buf : list Z) :
  Forall is_byte d ->
  (length buf < length d)%nat ->
  next_slip_packet (mk_port (map Rd (stuffing d) ++ rest) c0 said0) buf
  = Undefined (StoreOutside (Z.of_nat (length buf))).
Proof.
  intros Hbytes Hlong. unfold next_slip_packet. cbn [chan].
  rewrite <- (take_drop (length buf) d) in Hbytes |- *.
  destruct (drop (length buf) d) as [|b d2] eqn:Hd2.
  { apply (f_equal length) in Hd2. rewrite length_drop in Hd2.
    cbn [length] in Hd2. lia. }
  set (d1 := take (length buf) d) in *.
  assert (Hd1 : length d1 = length buf) by (unfold d1; rewrite length_take; lia).
  apply Forall_app in Hbytes. destruct Hbytes as [Hb1 Hb2].
  apply Forall_cons_iff in Hb2. destruct Hb2 as [Hb _].
  rewrite stuffing_app. cbn [stuffing].
  rewrite map_Rd_app, map_Rd_app.
  set (after := map Rd (stuffing d2) ++ rest).
  set (tail := map Rd (stuffed b) ++ after).
  pose proof (length_stuffing d1) as Hs1.
  replace (S (length (map Rd (stuffing d1) ++ tail)))
    with (length d1 + S (length (map Rd (stuffing d1) ++ tail) - length d1))%nat
    by (rewrite length_app, length_map; lia).
  destruct (next_slip_loop_stuffing d1
              (S (length (map Rd (stuffing d1) ++ tail) - length d1))
              [] buf tail c0 said0 0 Hb1) as [c1 Hrun]; [lia|reflexivity|].
  cbn [app] in Hrun. rewrite Hrun. cbn [next_slip_loop]. unfold tail.
  destruct (decode_slip_stuffed b after c1 said0) as [c2 Hdec].
  rewrite Hdec. unfold is_byte in Hb.
  replace (b =? -1) with false by (symmetry; apply Z.eqb_neq; lia).
  replace (b =? DECODE_END_OF_PACKET) with false
    by (symmetry; apply Z.eqb_neq; unfold DECODE_END_OF_PACKET; lia).
  rewrite store_full.
  - rewrite Hd1. reflexivity.
  - rewrite length_app, length_drop. lia.
Qed.

(** Three data bytes into a buffer of two cells. *)
Lemma next_slip_packet_stores_past_buf_witness :
  Forall is_byte [0x01; 0xc0; 0x03]
  /\ next_slip_packet (mk_port (map Rd [0x01; 0xdb; 0xdc; 0x03; 0xc0]) 0 [])
       [0; 0]
     = Undefined (StoreOutside 2).
Proof.
  assert (H : Forall is_byte [0x01; 0xc0; 0x03])
    by (repeat constructor; unfold is_byte; lia).
  split; [exact H|].
  exact (next_slip_packet_stores_past_buf [0x01; 0xc0; 0x03] [Rd 0xc0] 0 [] [0; 0] H
           (Nat.lt_succ_diag_r 2)).
Defined.

(** ** What the decoder accepts *)

Lemma store_inv (w tail : list Z) (i v : Z) (b : list Z) :
  i = Z.of_nat (length w) ->
  store (w ++ tail) i v = Done b ->
  exists x tail', tail = x :: tail' /\ b = (w ++ [v]) ++ tail'.
Proof.
  intros Hi H. destruct tail as [|x tail'].
  - rewrite store_full in H; [discriminate|]. rewrite app_nil_r. lia.
  - rewrite (store_after w x tail') in H by assumption.
    injection H as <-. exists x, tail'. rewrite <- app_assoc. split; reflexivity.
Qed.

Lemma decode_slip_plain (b : Z) (rest : list rd_event) (c0 : Z)
  (said0 : list diag) :
  b <> ESC -> b <> END ->
  decode_slip (mk_port (Rd b :: rest) c0 said0) = (b, mk_port rest b said0).
Proof.
  intros H1 H2. unfold decode_slip. cbn [read chan cell said].
  change (1 =? 0) with false. cbv iota.
  apply Z.eqb_neq in H1, H2. rewrite H1, H2. reflexivity.
Qed.

(** The loop of [next_slip_packet] on a stream of bytes: when it returns a
    length, what it has consumed is the stuffed form of the bytes it has
    stored, and the [END] after them. *)
Lemma next_slip_loop_accepts (budget : nat) :
  forall (s w tail : list Z) (i c0 : Z) (said0 : list diag) (n : Z)
         (buf' : list Z) (p' : port),
    Forall is_byte s ->
    i = Z.of_nat (length w) ->
    next_slip_loop budget (mk_port (map Rd s) c0 said0) (w ++ tail) i
    = Done (n, buf', p') ->
    n <> -1 ->
    exists d s',
      s = stuffing d ++ END :: s'
      /\ chan p' = map Rd s'
      /\ buf' = (w ++ d) ++ drop (length d) tail
      /\ n = Z.of_nat (length (w ++ d))
      /\ (length d <= length tail)%nat.
Proof.
  induction budget as [|budget IH];
    intros s w tail i c0 said0 n buf' p' Hbytes Hi Hrun Hn;
    cbn [next_slip_loop] in Hrun; [discriminate|].
  assert (Hstep : forall (v : Z) (s1 : list Z) (c1 : Z),
             is_byte v -> Forall is_byte s1 ->
             (buf1 <- store (w ++ tail) i (v mod 256) ;;
              next_slip_loop budget (mk_port (map Rd s1) c1 said0) buf1 (i + 1))
             = Done (n, buf', p') ->
             exists d s',
               s1 = stuffing d ++ END :: s'
               /\ chan p' = map Rd s'
               /\ buf' = (w ++ v :: d) ++ drop (length (v :: d)) tail
               /\ n = Z.of_nat (length (w ++ v :: d))
               /\ (length (v :: d) <= length tail)%nat).
  { intros v s1 c1 Hv Hs1 H. unfold is_byte in Hv.
    rewrite Z.mod_small in H by lia.
    destruct (store (w ++ tail) i v) as [buf1| |] eqn:Hst; cbn [and_then] in H;
      try discriminate.
    destruct (store_inv w tail i v buf1 Hi Hst) as (x & tail' & -> & ->).
    destruct (IH s1 (w ++ [v]) tail' (i + 1) c1 said0 n buf' p' Hs1) as
      (d & s' & Hs & Hch & Hbuf & Hlen & Hroom); try assumption.
    { rewrite length_app. cbn [length]. lia. }
    exists d, s'. split; [assumption|]. split; [assumption|].
    split; [rewrite Hbuf, <- !app_assoc; reflexivity|].
    split; [rewrite Hlen, <- app_assoc; reflexivity|].
    cbn [length]. lia. }
  destruct s as [|b s1]; [cbn in Hrun; congruence|].
  apply Forall_cons_iff in Hbytes. destruct Hbytes as [Hb Hbytes].
  destruct (Z.eq_dec b END) as [->|HnE].
  { cbn [map] in Hrun. rewrite decode_slip_END in Hrun.
    injection Hrun as <- <- <-. exists [], s1.
    cbn [stuffing app length drop chan]. rewrite !app_nil_r.
    repeat split; try assumption. lia. }
  destruct (Z.eq_dec b ESC) as [->|HnC].
  - destruct s1 as [|b2 s2]; [cbn in Hrun; congruence|].
    apply Forall_cons_iff in Hbytes. destruct Hbytes as [Hb2 Hbytes].
    cbn [map] in Hrun. unfold decode_slip in Hrun.
    cbn [read chan cell said] in Hrun.
    change (1 =? 0) with false in Hrun. change (ESC =? ESC) with true in Hrun.
    cbv iota in Hrun.
    destruct (b2 =? ESC_END) eqn:E1; [|destruct (b2 =? ESC_ESC) eqn:E2].
    + apply Z.eqb_eq in E1. subst b2.
      change (END =? -1) with false in Hrun.
      change (END =? DECODE_END_OF_PACKET) with false in Hrun. cbv iota in Hrun.
      destruct (Hstep END s2 ESC_END ltac:(unfold is_byte, END; lia) Hbytes Hrun)
        as (d & s' & -> & Hch & Hbuf & Hlen & Hroom).
      exists (END :: d), s'. repeat split; assumption.
    + apply Z.eqb_eq in E2. subst b2.
      change (ESC =? -1) with false in Hrun.
      change (ESC =? DECODE_END_OF_PACKET) with false in Hrun. cbv iota in Hrun.
      destruct (Hstep ESC s2 ESC_ESC ltac:(unfold is_byte, ESC; lia) Hbytes Hrun)
        as (d & s' & -> & Hch & Hbuf & Hlen & Hroom).
      exists (ESC :: d), s'. repeat split; assumption.
    + cbn in Hrun. congruence.
  - cbn [map] in Hrun. rewrite decode_slip_plain in Hrun by assumption.
    pose proof Hb as Hb'. unfold is_byte in Hb'.
    replace (b =? -1) with false in Hrun by (symmetry; apply Z.eqb_neq; lia).
    replace (b =? DECODE_END_OF_PACKET) with false in Hrun
      by (symmetry; apply Z.eqb_neq; unfold DECODE_END_OF_PACKET; lia).
    destruct (Hstep b s1 b Hb Hbytes Hrun)
      as (d & s' & -> & Hch & Hbuf & Hlen & Hroom).
    exists (b :: d), s'. cbn [stuffing]. unfold stuffed.
    apply Z.eqb_neq in HnE, HnC. rewrite HnE, HnC.
    repeat split; assumption.
Qed.

(** X3 (the decoder accepts encodings only).  On a stream of bytes, whenever
    [next_slip_packet] returns a length and not -1, the bytes it has
    consumed are exactly the frame [encode_slip] produces for the packet it
    has left in its buffer, and the returned length is within the buffer:
    no other byte sequence decodes to a packet. *)
Theorem next_slip_packet_accepts_encodings (s : list Z) (c0 : Z)
  (said0 : list diag) (buf : list Z) (n : Z) (buf' : list Z) (p' : port) :
  Forall is_byte s ->
  next_slip_packet (mk_port (map Rd s) c0 said0) buf = Done (n, buf', p') ->
  n <> -1 ->
  0 <= n <= Z.of_nat (length buf)
  /\ exists s',
       s = Encode_doc (take (Z.to_nat n) buf') ++ s'
       /\ chan p' = map Rd s'.
Proof.
  intros Hbytes Hrun Hn. unfold next_slip_packet in Hrun.
  destruct (next_slip_loop_accepts _ s [] buf 0 c0 said0 n buf' p' Hbytes
              eq_refl Hrun Hn) as (d & s' & -> & Hch & -> & -> & Hroom).
  cbn [app]. split; [lia|]. exists s'.
  rewrite Nat2Z.id, take_app_length. unfold Encode_doc.
  rewrite <- app_assoc. split; [reflexivity|assumption].
Qed.

(** A stream that holds one frame and the first byte of the next. *)
Lemma next_slip_packet_accepts_encodings_witness :
  Forall is_byte [0x41; 0xdb; 0xdd; 0xc0; 0x42]
  /\ exists s',
       [0x41; 0xdb; 0xdd; 0xc0; 0x42] = Encode_doc [0x41; 0xdb] ++ s'.
Proof.
  assert (H : Forall is_byte [0x41; 0xdb; 0xdd; 0xc0; 0x42])
    by (repeat constructor; unfold is_byte; lia).
  split; [exact H|].
  destruct (next_slip_packet_accepts_encodings
              [0x41; 0xdb; 0xdd; 0xc0; 0x42] 0 [] [0; 0; 0] 2 [0x41; 0xdb; 0]
              (mk_port [Rd 0x42] END []) H eq_refl ltac:(discriminate))
    as (_ & s' & Hs & _).
  exists s'. exact Hs.
Defined.

(** ** What the inbound pump hands to the tunnel, on any stream *)

(** Whatever the script, a run of the loop of [next_slip_packet] that stays
    inside [buf] keeps its size and returns -1 or a count within it. *)
Lemma next_slip_loop_bounds (budget : nat) :
  forall (p : port) (buf : list Z) (i n : Z) (buf' : list Z) (p' : port),
    0 <= i <= Z.of_nat (length buf) ->
    next_slip_loop budget p buf i = Done (n, buf', p') ->
    length buf' = length buf
    /\ (n = -1 \/ i <= n <= Z.of_nat (length buf)).
Proof.
  induction budget as [|budget IH]; intros p buf i n buf' p' Hi;
    cbn [next_slip_loop]; [discriminate|].
  destruct (decode_slip p) as [result p1].
  destruct (result =? -1); [intros [= <- <- <-]; split; [reflexivity|left; reflexivity]|].
  destruct (result =? DECODE_END_OF_PACKET);
    [intros [= <- <- <-]; split; [reflexivity|right; lia]|].
  unfold store, in_bounds.
  destruct (0 <=? i) eqn:E0; cbn [andb]; [|discriminate].
  destruct (i <? Z.of_nat (length buf)) eqn:E1; cbn [and_then]; [|discriminate].
  apply Z.ltb_lt in E1. intros H.
  apply (IH p1 _ (i + 1) n buf' p') in H.
  - rewrite length_insert in H. destruct H as [Hl Hn]. split; [assumption|lia].
  - rewrite length_insert. lia.
Qed.

(** One pass of [rx_thread] keeps the sizes of the two arrays and the
    header, and hands to the tunnel nothing or one Link Frame. *)
Lemma rx_body_link_frames (s : rx_state) (r : flow rx_state) :
  rx_arrays (rx_c s) (rx_packet s) ->
  Forall link_frame (rx_utun s) ->
  rx_body s = Done r ->
  match r with
  | Continue s' | Return s' =>
      rx_arrays (rx_c s') (rx_packet s') /\ Forall link_frame (rx_utun s')
  end.
Proof.
  intros (Hc & Hpacket & Hhead) Hutun. unfold rx_body.
  destruct (next_slip_packet (rx_port s) (rx_c s)) as [[[n c] p]| |] eqn:Hnsp;
    cbn [and_then]; try discriminate.
  unfold next_slip_packet in Hnsp.
  apply next_slip_loop_bounds in Hnsp; [|lia].
  destruct Hnsp as [Hlen Hn].
  unfold MAX_PACKET_SIZE, NULL_LOOPBACK_HEADER_SIZE, MTU in *.
  destruct (n <? 0) eqn:E0.
  { intros [= <-]. cbn [rx_c rx_packet rx_utun].
    split; [|assumption]. unfold rx_arrays.
    unfold MAX_PACKET_SIZE, NULL_LOOPBACK_HEADER_SIZE, MTU.
    repeat split; try assumption; lia. }
  destruct (n <? 1) eqn:E1.
  { intros [= <-]. cbn [rx_c rx_packet rx_utun].
    split; [|assumption]. unfold rx_arrays.
    unfold MAX_PACKET_SIZE, NULL_LOOPBACK_HEADER_SIZE, MTU.
    repeat split; try assumption; lia. }
  apply Z.ltb_ge in E0, E1.
  unfold memcpy.
  replace (n <? 0) with false by (symmetry; apply Z.ltb_ge; lia).
  replace (Z.of_nat (length c) <? 0 + n) with false
    by (symmetry; apply Z.ltb_ge; lia).
  replace (Z.of_nat (length (rx_packet s)) <? 4 + n) with false
    by (symmetry; apply Z.ltb_ge; lia).
  cbn [and_then]. change (Z.to_nat 0) with 0%nat. change (Z.to_nat 4) with 4%nat.
  rewrite drop_0, Hhead. intros [= <-]. cbn [rx_c rx_packet rx_utun].
  assert (Htake : length (take (Z.to_nat n) c) = Z.to_nat n)
    by (rewrite length_take; lia).
  split.
  - unfold rx_arrays, MAX_PACKET_SIZE, NULL_LOOPBACK_HEADER_SIZE, MTU.
    cbn [length]. rewrite length_app, length_drop, Htake.
    repeat split; try lia.
  - apply Forall_app. split; [assumption|]. apply Forall_cons_iff.
    split; [|apply Forall_nil; exact I].
    replace (Z.to_nat (n + 4)) with (4 + Z.to_nat n)%nat by lia.
    change (0 :: 0 :: 0 :: AF_INET
              :: take (Z.to_nat n) c ++ drop (Z.to_nat (4 + n)) (rx_packet s))
      with ([0; 0; 0; AF_INET]
              ++ take (Z.to_nat n) c ++ drop (Z.to_nat (4 + n)) (rx_packet s)).
    rewrite (app_assoc [0; 0; 0; AF_INET]).
    rewrite take_app_length' by (rewrite length_app, Htake; cbn [length]; lia).
    unfold link_frame, MAX_PACKET_SIZE, NULL_LOOPBACK_HEADER_SIZE, MTU.
    rewrite length_app, Htake. cbn [length]. split; [reflexivity|lia].
Qed.

Lemma rx_loop_link_frames (budget : nat) :
  forall s s' : rx_state,
    rx_arrays (rx_c s) (rx_packet s) ->
    Forall link_frame (rx_utun s) ->
    rx_loop budget s = Done s' ->
    Forall link_frame (rx_utun s').
Proof.
  induction budget as [|budget IH]; intros s s' Harr Hutun;
    cbn [rx_loop]; [discriminate|].
  pose proof (rx_body_link_frames s) as Hbody.
  destruct (rx_body s) as [[s1|s1]| |]; cbn [and_then]; try discriminate.
  - destruct (Hbody _ Harr Hutun eq_refl) as [Harr1 Hutun1].
    apply IH; assumption.
  - destruct (Hbody _ Harr Hutun eq_refl) as [_ Hutun1].
    intros [= <-]. assumption.
Qed.

(** X4 (what reaches the tunnel).  On any script of the transport (bytes
    well-formed or not, failed reads, early end), if [rx_thread] returns
    without having left its arrays, every buffer it has handed to the tunnel
    is the header [0, 0, 0, AF_INET] followed by 1 to [MTU] bytes: never an
    empty packet, never more than [MTU + 4] bytes. *)
Theorem rx_thread_forwards_link_frames (p : port) (c packet : list Z)
  (s : rx_state) :
  Z.of_nat (length c) = MTU ->
  Z.of_nat (length packet) = MAX_PACKET_SIZE ->
  rx_thread p c packet = Done s ->
  Forall link_frame (rx_utun s).
Proof.
  intros Hc Hpacket Hrun.
  destruct (rx_thread_unfold p c packet Hc Hpacket) as (pk & Heq & Harr).
  rewrite Heq in Hrun.
  apply (rx_loop_link_frames _ _ s) in Hrun; try assumption.
  cbn [rx_utun]. apply Forall_nil. exact I.
Qed.

(** A stream with an empty frame, a frame, a failed read, a broken escape. *)
Lemma rx_thread_forwards_link_frames_witness :
  exists s,
    rx_thread (mk_port [Rd 0xc0; Rd 0x45; Rd 0xc0; Fail; Rd 0xdb; Rd 0x00] 7 [])
      (repeat 0 (Z.to_nat MTU)) (repeat 0 (Z.to_nat MAX_PACKET_SIZE))
    = Done s
    /\ rx_utun s = [[0; 0; 0; AF_INET; 0x45]]
    /\ Forall link_frame (rx_utun s).
Proof.
  eexists. split; [vm_compute; reflexivity|]. split; [reflexivity|].
  apply (rx_thread_forwards_link_frames
           (mk_port [Rd 0xc0; Rd 0x45; Rd 0xc0; Fail; Rd 0xdb; Rd 0x00] 7 [])
           (repeat 0 (Z.to_nat MTU)) (repeat 0 (Z.to_nat MAX_PACKET_SIZE)));
    vm_compute; reflexivity.
Defined.

(** ** The encoder: where [END] occurs, and the room it needs *)

Lemma stuffing_no_END (p : list Z) : ~ In END (stuffing p).
Proof.
  induction p as [|b p IH]; cbn [stuffing]; [intros []|].
  intros H. apply in_app_or in H. destruct H as [H|H]; [|exact (IH H)].
  unfold stuffed in H.
  destruct (b =? END) eqn:E1; [|destruct (b =? ESC) eqn:E2].
  - destruct H as [H|[H|[]]]; discriminate H.
  - destruct H as [H|[H|[]]]; discriminate H.
  - destruct H as [H|[]]. apply Z.eqb_neq in E1. congruence.
Qed.

(** X5 (frames are self-delimiting).  The frame [encode_slip] leaves for any
    packet, whatever its bytes, holds [END] as its last byte and nowhere
    else, so the first [END] on the transport is the end of the frame. *)
Theorem encode_slip_END_only_last (p post out : list Z) :
  (2 * length p + 1 <= length out)%nat ->
  exists body,
    frame_of (encode_slip (p ++ post) out (Z.of_nat (length p)))
    = Done (body ++ [END])
    /\ ~ In END body.
Proof.
  intros Hroom. exists (stuffing p).
  split; [apply frame_of_encode_slip; assumption|apply stuffing_no_END].
Qed.

(** A packet made of the three special bytes. *)
Lemma encode_slip_END_only_last_witness :
  exists body,
    frame_of (encode_slip [0xc0; 0xdb; 0xc0] (repeat 0 7) 3)
    = Done (body ++ [END])
    /\ ~ In END body.
Proof.
  exact (encode_slip_END_only_last [0xc0; 0xdb; 0xc0] [] (repeat 0 7)
           (Nat.le_refl 7)).
Defined.

(** One pass of the loop of [encode_slip] with just the room the stuffed
    form of the byte needs. *)
Lemma encode_body_tight (pre : list Z) (b : Z) (post w tail : list Z)
  (s : enc_state) :
  e_in s = Z.of_nat (length pre) ->
  e_out s = Z.of_nat (length w) ->
  e_buf s = w ++ tail ->
  (length (stuffed b) <= length tail)%nat ->
  exists s',
    encode_body (pre ++ b :: post) s = Done s'
    /\ e_in s' = Z.of_nat (length (pre ++ [b]))
    /\ e_out s' = Z.of_nat (length (w ++ stuffed b))
    /\ e_count s' = e_count s + Z.of_nat (length (stuffed b))
    /\ e_buf s' = (w ++ stuffed b) ++ drop (length (stuffed b)) tail.
Proof.
  intros Hin Hout Hbuf Hroom.
  destruct tail as [|x [|y tail]].
  - pose proof (length_stuffed b). cbn [length] in Hroom. lia.
  - unfold encode_body.
    rewrite (load_after pre b post) by assumption. cbn [and_then].
    revert Hroom. unfold stuffed.
    destruct (b =? END); [cbn [length]; lia|].
    destruct (b =? ESC); [cbn [length]; lia|]. intros _.
    rewrite Hbuf, (store_after w x []) by assumption. cbn [and_then].
    eexists; split; [reflexivity|]. cbn [e_in e_out e_count e_buf].
    rewrite !length_app. cbn [length]. rewrite <- app_assoc.
    repeat split; lia.
  - apply (encode_body_run pre b post w x y tail s); assumption.
Qed.

(** One pass of the loop when the room is short of the stuffed form. *)
Lemma encode_body_short (pre : list Z) (b : Z) (post w tail : list Z)
  (s : enc_state) :
  e_in s = Z.of_nat (length pre) ->
  e_out s = Z.of_nat (length w) ->
  e_buf s = w ++ tail ->
  (length tail < length (stuffed b))%nat ->
  encode_body (pre ++ b :: post) s
  = Undefined (StoreOutside (Z.of_nat (length (w ++ tail)))).
Proof.
  intros Hin Hout Hbuf Hroom. unfold encode_body.
  rewrite (load_after pre b post) by assumption. cbn [and_then].
  rewrite Hbuf. revert Hroom. unfold stuffed.
  destruct tail as [|x tail].
  - intros _. rewrite app_nil_r.
    destruct (b =? END); [|destruct (b =? ESC)];
      rewrite store_full by lia; cbn [and_then]; rewrite Hout; reflexivity.
  - destruct tail as [|y tail].
    2:{ intros H. exfalso. revert H.
        destruct (b =? END); [|destruct (b =? ESC)]; cbn [length]; lia. }
    assert (Hfull : forall v,
               store (w ++ [ESC]) (e_out s + 1) v
               = Undefined (StoreOutside (Z.of_nat (length (w ++ [x]))))).
    { intros v. rewrite store_full by (rewrite length_app; cbn [length]; lia).
      rewrite length_app, Hout. cbn [length]. do 2 f_equal. lia. }
    destruct (b =? END); [|destruct (b =? ESC)]; cbn [length]; intros H.
    + rewrite (store_after w x []) by assumption. cbn [and_then].
      rewrite Hfull. reflexivity.
    + rewrite (store_after w x []) by assumption. cbn [and_then].
      rewrite Hfull. reflexivity.
    + lia.
Qed.

Lemma encode_loop_tight (p : list Z) :
  forall (pre post w tail : list Z) (s : enc_state),
    e_in s = Z.of_nat (length pre) ->
    e_out s = Z.of_nat (length w) ->
    e_buf s = w ++ tail ->
    (length (stuffing p) <= length tail)%nat ->
    exists s',
      encode_loop (length p) (pre ++ p ++ post) s = Done s'
      /\ e_out s' = Z.of_nat (length (w ++ stuffing p))
      /\ e_count s' = e_count s + Z.of_nat (length (stuffing p))
      /\ e_buf s' = (w ++ stuffing p) ++ drop (length (stuffing p)) tail.
Proof.
  induction p as [|b p IH]; intros pre post w tail s Hin Hout Hbuf Hroom.
  - exists s. cbn [encode_loop stuffing length]. rewrite drop_0, !app_nil_r.
    repeat split; try assumption; lia.
  - cbn [stuffing] in Hroom. rewrite length_app in Hroom.
    destruct (encode_body_tight pre b (p ++ post) w tail s Hin Hout Hbuf)
      as (s1 & Hrun & Hin1 & Hout1 & Hcnt1 & Hbuf1); [lia|].
    destruct (IH (pre ++ [b]) post (w ++ stuffed b)
                (drop (length (stuffed b)) tail) s1 Hin1 Hout1 Hbuf1)
      as (s2 & Hrun2 & Hout2 & Hcnt2 & Hbuf2).
    { rewrite length_drop. lia. }
    exists s2. cbn [encode_loop length app]. rewrite Hrun. cbn [and_then].
    rewrite <- app_assoc in Hrun2. cbn [app] in Hrun2. rewrite Hrun2.
    split; [reflexivity|]. cbn [stuffing].
    rewrite Hout2, Hcnt2, Hcnt1, Hbuf2.
    rewrite drop_drop. rewrite !length_app, <- !app_assoc.
    repeat split; lia.
Qed.

Lemma encode_loop_short (p : list Z) :
  forall (pre post w tail : list Z) (s : enc_state),
    e_in s = Z.of_nat (length pre) ->
    e_out s = Z.of_nat (length w) ->
    e_buf s = w ++ tail ->
    (length tail < length (stuffing p))%nat ->
    encode_loop (length p) (pre ++ p ++ post) s
    = Undefined (StoreOutside (Z.of_nat (length (w ++ tail)))).
Proof.
  induction p as [|b p IH]; intros pre post w tail s Hin Hout Hbuf Hroom.
  - cbn [stuffing length] in Hroom. lia.
  - cbn [stuffing] in Hroom. rewrite length_app in Hroom.
    cbn [encode_loop length app].
    destruct (Nat.lt_ge_cases (length tail) (length (stuffed b))) as [Hs|Hs].
    + rewrite (encode_body_short pre b (p ++ post) w tail s) by assumption.
      reflexivity.
    + destruct (encode_body_tight pre b (p ++ post) w tail s Hin Hout Hbuf Hs)
        as (s1 & Hrun & Hin1 & Hout1 & Hcnt1 & Hbuf1).
      rewrite Hrun. cbn [and_then].
      pose proof (IH (pre ++ [b]) post (w ++ stuffed b)
                    (drop (length (stuffed b)) tail) s1 Hin1 Hout1 Hbuf1) as H.
      rewrite <- app_assoc in H. cbn [app] in H. rewrite H.
      * rewrite !length_app, length_drop. do 3 f_equal. lia.
      * rewrite length_drop. lia.
Qed.

(** X6 (the room [encode_slip] needs).  For a packet of any length,
    [encode_slip] stays inside its output array exactly when the array has
    a cell for every byte of the frame.  It then returns the length of the
    frame and leaves every cell past the frame as it was; otherwise it
    stores at the first index past the end of the array. *)
Theorem encode_slip_room (p post out : list Z) :
  encode_slip (p ++ post) out (Z.of_nat (length p))
  = if (length (Encode_doc p) <=? length out)%nat
    then Done (Encode_doc p ++ drop (length (Encode_doc p)) out,
               Z.of_nat (length (Encode_doc p)))
    else Undefined (StoreOutside (Z.of_nat (length out))).
Proof.
  unfold encode_slip. rewrite Nat2Z.id.
  unfold Encode_doc at 1. rewrite length_app. cbn [length].
  destruct (Nat.lt_ge_cases (length out) (length (stuffing p))) as [Hs|Hs].
  - replace (length (stuffing p) + 1 <=? length out)%nat with false
      by (symmetry; apply Nat.leb_gt; lia).
    rewrite (encode_loop_short p [] post [] out) by (try reflexivity; lia).
    reflexivity.
  - destruct (encode_loop_tight p [] post [] out (mk_enc 0 0 0 out))
      as (s & Hrun & Hout & Hcnt & Hbuf); try reflexivity; [lia|].
    cbn [app] in Hrun, Hout, Hbuf. rewrite Hrun. cbn [and_then].
    cbn [e_count] in Hcnt. rewrite Hbuf.
    destruct (drop (length (stuffing p)) out) as [|x tail] eqn:Hdrop.
    + apply (f_equal length) in Hdrop. rewrite length_drop in Hdrop.
      cbn [length] in Hdrop.
      replace (length (stuffing p) + 1 <=? length out)%nat with false
        by (symmetry; apply Nat.leb_gt; lia).
      rewrite store_full by (rewrite app_nil_r; lia). cbn [and_then].
      rewrite Hout. do 2 f_equal. lia.
    + assert (Hlt : (length (stuffing p) < length out)%nat).
      { apply (f_equal length) in Hdrop. rewrite length_drop in Hdrop.
        cbn [length] in Hdrop. lia. }
      replace (length (stuffing p) + 1 <=? length out)%nat with true
        by (symmetry; apply Nat.leb_le; lia).
      rewrite (store_after (stuffing p) x tail) by assumption.
      cbn [and_then]. unfold Encode_doc. rewrite length_app. cbn [length].
      rewrite <- app_assoc. cbn [app].
      replace (drop (length (stuffing p) + 1) out) with tail.
      2:{ rewrite <- drop_drop, Hdrop. reflexivity. }
      rewrite Hcnt. f_equal. f_equal. lia.
Qed.

(** ** The outbound pump from frame to frame *)

(** One pass of [tx_thread] over a read of 4 to [MTU + 4] bytes. *)
Lemma tx_body_frame (k : tx_stack) (bytes : list Z) (utun : list tun_event)
  (results : list Z) (calls : list (list Z)) (wire : list Z) :
  tx_arrays k -> tunnel_frame bytes ->
  tx_body k (mk_tx (TunFrame bytes :: utun) results calls wire)
  = Done (Continue
            (mk_tx utun (tl results) (calls ++ encoded [bytes])
               (wire ++ wire_of results (encoded [bytes])))).
Proof.
  unfold tx_arrays, tunnel_frame.
  unfold MAX_PACKET_SIZE_SLIP, MAX_PACKET_SIZE, NULL_LOOPBACK_HEADER_SIZE, MTU.
  intros (Hc & Hpacket & Hencoded) Hlen.
  unfold tx_body. cbn [tx_utun tx_results tx_calls tx_wire read_utun].
  unfold MAX_PACKET_SIZE, NULL_LOOPBACK_HEADER_SIZE, MTU.
  rewrite take_ge by lia.
  replace (Z.of_nat (length bytes) =? -1) with false
    by (symmetry; apply Z.eqb_neq; lia).
  rewrite memcpy_strip by lia. cbn [and_then].
  replace (Z.of_nat (length bytes) - 4)
    with (Z.of_nat (length (drop 4 bytes))) by (rewrite length_drop; lia).
  rewrite encode_slip_run by (rewrite length_drop; lia). cbn [and_then].
  rewrite Nat2Z.id, take_app_length.
  cbn [encoded map wire_of]. rewrite app_nil_r.
  unfold write_serial, taken.
  destruct results as [|r results]; [reflexivity|].
  destruct (r <? 0); reflexivity.
Qed.

Lemma tx_loop_frames (k : tx_stack) (frames : list (list Z)) :
  forall (budget : nat) (utun : list tun_event) (results : list Z)
         (calls : list (list Z)) (wire : list Z),
    tx_arrays k -> Forall tunnel_frame frames ->
    tx_loop (length frames + budget) k
      (mk_tx (map TunFrame frames ++ utun) results calls wire)
    = tx_loop budget k
        (mk_tx utun (drop (length frames) results) (calls ++ encoded frames)
           (wire ++ wire_of results (encoded frames))).
Proof.
  induction frames as [|f frames IH];
    intros budget utun results calls wire Hk Hframes.
  - cbn [length map app Nat.add encoded wire_of]. rewrite drop_0, !app_nil_r.
    reflexivity.
  - apply Forall_cons_iff in Hframes. destruct Hframes as [Hf Hframes].
    cbn [length map app Nat.add tx_loop].
    rewrite tx_body_frame by assumption. cbn [and_then].
    rewrite IH by assumption.
    cbn [encoded map wire_of]. rewrite app_nil_r, <- !app_assoc.
    destruct results as [|r results]; cbn [tl]; [rewrite !drop_nil|];
      reflexivity.
Qed.

Lemma wire_of_nil (frames : list (list Z)) : wire_of [] frames = concat frames.
Proof.
  induction frames as [|f frames IH]; [reflexivity|].
  cbn [wire_of tl taken concat]. rewrite IH. reflexivity.
Qed.

(** The run of [tx_thread] over reads of 4 to [MTU + 4] bytes followed by a
    failing read. *)
Lemma tx_thread_run (k : tx_stack) (frames : list (list Z))
  (utun : list tun_event) (results : list Z) (calls : list (list Z))
  (wire : list Z) :
  tx_arrays k -> Forall tunnel_frame frames ->
  tx_thread k (mk_tx (map TunFrame frames ++ TunFail :: utun) results calls wire)
  = Done (mk_tx utun (drop (length frames) results) (calls ++ encoded frames)
            (wire ++ wire_of results (encoded frames))).
Proof.
  intros Hk Hframes. unfold tx_thread. cbn [tx_utun].
  replace (S (length (map TunFrame frames ++ TunFail :: utun)))
    with (length frames + S (S (length utun)))%nat
    by (rewrite length_app, length_map; cbn [length]; lia).
  rewrite tx_loop_frames by assumption. reflexivity.
Qed.

(** X7 (the outbound pump, frame after frame).  Over any number of tunnel
    reads of 4 to [MTU + 4] bytes followed by a failing read, [tx_thread]
    hands to [write] the encoding of each read less its four header bytes,
    once each and in order, whatever the earlier writes returned, and
    returns at the failing read; when every write takes all it is given,
    the wire carries these frames end to end. *)
Theorem tx_thread_frames (k : tx_stack) (frames : list (list Z))
  (utun : list tun_event) (results : list Z) :
  tx_arrays k -> Forall tunnel_frame frames ->
  exists s,
    tx_thread k (mk_tx (map TunFrame frames ++ TunFail :: utun) results [] [])
    = Done s
    /\ tx_utun s = utun
    /\ tx_calls s = encoded frames
    /\ tx_wire s = wire_of results (encoded frames)
    /\ (results = [] -> tx_wire s = concat (encoded frames)).
Proof.
  intros Hk Hframes. eexists. split; [apply tx_thread_run; assumption|].
  cbn [tx_utun tx_calls tx_wire app]. repeat split.
  intros ->. apply wire_of_nil.
Qed.

(** Two reads, the second write failing. *)
Lemma tx_thread_frames_witness :
  tx_arrays blank_stack
  /\ exists s,
       tx_thread blank_stack
         (mk_tx [TunFrame [0; 0; 0; AF_INET; 0x45; 0xc0];
                 TunFrame [0; 0; 0; AF_INET; 0x46]; TunFail] [5; -1] [] [])
       = Done s
       /\ tx_calls s = [[0x45; 0xdb; 0xdc; 0xc0]; [0x46; 0xc0]]
       /\ tx_wire s = [0x45; 0xdb; 0xdc; 0xc0].
Proof.
  assert (Hk : tx_arrays blank_stack) by (repeat split).
  split; [exact Hk|].
  destruct (tx_thread_frames blank_stack
              [[0; 0; 0; AF_INET; 0x45; 0xc0]; [0; 0; 0; AF_INET; 0x46]]
              [] [5; -1] Hk) as (s & Hrun & _ & Hcalls & Hwire & _).
  - repeat constructor; vm_compute; discriminate.
  - exists s. split; [exact Hrun|]. split; [exact Hcalls|exact Hwire].
Defined.

(** ** From the tunnel on one side to the tunnel on the other *)

Lemma stream_of_concat (packets : list (list Z)) :
  map Rd (concat (map Encode_doc packets)) = stream_of packets.
Proof.
  induction packets as [|f packets IH]; [reflexivity|].
  cbn [map concat stream_of]. rewrite map_app, IH. reflexivity.
Qed.

Lemma forwarded_link_frames (frames : list (list Z)) :
  Forall link_frame frames -> forwarded (map (drop 4) frames) = frames.
Proof.
  induction 1 as [|f frames [Hhead Hlen] _ IH]; [reflexivity|].
  cbn [map]. rewrite forwarded_cons, IH.
  destruct (drop 4 f) as [|b g] eqn:Hd.
  - apply (f_equal length) in Hd. rewrite length_drop in Hd.
    cbn [length] in Hd. lia.
  - cbn [forwarded app]. unfold Wrap_doc.
    rewrite <- Hd, <- Hhead, take_drop. reflexivity.
Qed.

(** X8 (through both pumps).  Let [tx_thread] read Link Frames of 4 to
    [MTU + 4] bytes whose payloads are bytes, over a transport that takes
    every write in full; let [rx_thread] of the peer read what went on the
    wire.  The peer hands to its tunnel the header [0, 0, 0, AF_INET] and
    the payload of every frame whose payload is not empty, in order; for
    frames that carry that header and a payload these are the very frames
    read. *)
Theorem tx_then_rx (k : tx_stack) (frames : list (list Z))
  (utun : list tun_event) (c0 : Z) (said0 : list diag) (c packet : list Z) :
  tx_arrays k ->
  Forall tunnel_frame frames ->
  Forall (fun f => Forall is_byte (drop 4 f)) frames ->
  Z.of_nat (length c) = MTU ->
  Z.of_nat (length packet) = MAX_PACKET_SIZE ->
  exists s c1 c' packet',
    tx_thread k (mk_tx (map TunFrame frames ++ TunFail :: utun) [] [] [])
    = Done s
    /\ rx_thread (mk_port (map Rd (tx_wire s)) c0 said0) c packet
       = Done (mk_rx (mk_port [] c1 (said0 ++ [Read_error])) c' packet'
                 (forwarded (map (drop 4) frames)))
    /\ (Forall link_frame frames -> forwarded (map (drop 4) frames) = frames).
Proof.
  intros Hk Hframes Hbytes Hc Hpacket.
  assert (Hfit : Forall fits (map (drop 4) frames)).
  { apply Forall_fmap. apply Forall_forall. intros f Hf.
    pose proof (proj1 (Forall_forall _ _) Hframes f Hf) as Hlen.
    pose proof (proj1 (Forall_forall _ _) Hbytes f Hf) as Hb.
    unfold tunnel_frame, MAX_PACKET_SIZE, NULL_LOOPBACK_HEADER_SIZE in Hlen.
    cbn beta. split; [assumption|]. rewrite length_drop. lia. }
  destruct (rx_thread_stream (map (drop 4) frames) c0 said0 c packet Hfit Hc
              Hpacket) as (c1 & c' & packet' & Hrx).
  eexists _, c1, c', packet'.
  split; [apply tx_thread_run; assumption|].
  split; [|apply forwarded_link_frames].
  cbn [tx_wire app]. rewrite wire_of_nil. unfold encoded.
  rewrite <- (map_map (drop 4) Encode_doc), stream_of_concat. exact Hrx.
Qed.

(** Two Link Frames through both pumps. *)
Lemma tx_then_rx_witness :
  Forall link_frame [[0; 0; 0; AF_INET; 0x45; 0xc0]; [0; 0; 0; AF_INET; 0xdb]]
  /\ exists c1 c' packet',
       rx_thread
         (mk_port (map Rd [0x45; 0xdb; 0xdc; 0xc0; 0xdb; 0xdd; 0xc0]) 0 [])
         (repeat 0 (Z.to_nat MTU)) (repeat 0 (Z.to_nat MAX_PACKET_SIZE))
       = Done (mk_rx (mk_port [] c1 [Read_error]) c' packet'
                 [[0; 0; 0; AF_INET; 0x45; 0xc0]; [0; 0; 0; AF_INET; 0xdb]]).
Proof.
  assert (Hl : Forall link_frame
                 [[0; 0; 0; AF_INET; 0x45; 0xc0]; [0; 0; 0; AF_INET; 0xdb]]).
  { repeat constructor; vm_compute; discriminate. }
  split; [exact Hl|].
  destruct (tx_then_rx blank_stack
              [[0; 0; 0; AF_INET; 0x45; 0xc0]; [0; 0; 0; AF_INET; 0xdb]]
              [] 0 [] (repeat 0 (Z.to_nat MTU))
              (repeat 0 (Z.to_nat MAX_PACKET_SIZE)))
    as (s & c1 & c' & packet' & Htx & Hrx & Hsame).
  - repeat split.
  - repeat constructor; vm_compute; discriminate.
  - repeat constructor; unfold is_byte; lia.
  - reflexivity.
  - reflexivity.
  - exists c1, c', packet'. rewrite (Hsame Hl) in Hrx.
    assert (Hs : tx_wire s = [0x45; 0xdb; 0xdc; 0xc0; 0xdb; 0xdd; 0xc0]).
    { vm_compute in Htx. injection Htx as <-. reflexivity. }
    rewrite Hs in Hrx. exact Hrx.
Defined.

(** ** Opening the transport: what [connect_device] returns and when *)

Lemma connect_device_cons (t : device_type) (e : syscalls)
  (attempts : list syscalls) (baud error_is_fatal : Z) :
  connect_device t (e :: attempts) baud error_is_fatal
  = match open_device t e baud error_is_fatal with
    | Exits status => Exited status
    | Returns fd =>
        if fd =? -1 then
          if negb (error_is_fatal =? 0) then Exited 1
          else connect_device t attempts baud error_is_fatal
        else Opened fd
    end.
Proof. destruct t; reflexivity. Qed.

(** X9 (the descriptor returned).  Whatever the transport kind, the flag
    and the script, a descriptor [connect_device] returns is never -1, and
    it is what the opener returned on one of the attempts of the script. *)
Theorem connect_device_opened (t : device_type) (attempts : list syscalls)
  (baud error_is_fatal fd : Z) :
  connect_device t attempts baud error_is_fatal = Opened fd ->
  fd <> -1
  /\ exists e, In e attempts
               /\ open_device t e baud error_is_fatal = Returns fd.
Proof.
  induction attempts as [|e attempts IH]; [discriminate|].
  rewrite connect_device_cons.
  destruct (open_device t e baud error_is_fatal) as [r|st] eqn:Ho;
    [|discriminate].
  destruct (r =? -1) eqn:Er.
  - destruct (negb (error_is_fatal =? 0)); [discriminate|].
    intros H. destruct (IH H) as (Hfd & e' & Hin & He').
    split; [assumption|]. exists e'. split; [right; assumption|assumption].
  - intros [= <-]. apply Z.eqb_neq in Er. split; [assumption|].
    exists e. split; [left; reflexivity|assumption].
Qed.

(** A serial port that opens at the third attempt. *)
Lemma connect_device_opened_witness :
  connect_device DEVICE_TYPE_HARDWARE
    [mk_sys (-1) 0 0 0 0 0 0 0 0; mk_sys 4 0 (-1) 0 0 0 0 0 0;
     mk_sys 5 (-1) 0 0 0 0 0 0 0] 9600 0 = Opened 5
  /\ 5 <> -1.
Proof.
  split; [reflexivity|].
  exact (proj1 (connect_device_opened DEVICE_TYPE_HARDWARE
                  [mk_sys (-1) 0 0 0 0 0 0 0 0; mk_sys 4 0 (-1) 0 0 0 0 0 0;
                   mk_sys 5 (-1) 0 0 0 0 0 0 0] 9600 0 5 eq_refl)).
Defined.

(** X10 (the first open).  With [error_is_fatal] set, [connect_device]
    makes one attempt and never a second, whatever the later attempts would
    have given: when the opener of that attempt returns a descriptor other
    than -1, [connect_device] returns that very descriptor; when it returns
    -1 the process exits with status 1; when the opener itself exits, the
    status is -1.  For each transport the descriptor is the one the system
    gave: what [open] returned for the hardware transport (with [tcgetattr]
    and [tcsetattr] succeeding), what [socket] returned for the socket
    client (with [connect] succeeding), what [accept] returned for the
    socket server (with [socket], [bind] and [listen] succeeding). *)
Theorem connect_device_fatal_once (t : device_type) (e : syscalls)
  (attempts : list syscalls) (baud error_is_fatal : Z) :
  error_is_fatal <> 0 ->
  connect_device t (e :: attempts) baud error_is_fatal
  = connect_device t [e] baud error_is_fatal
  /\ connect_device t (e :: attempts) baud error_is_fatal
     = match open_device t e baud error_is_fatal with
       | Returns fd => if fd =? -1 then Exited 1 else Opened fd
       | Exits status => Exited status
       end
  /\ (forall status,
         open_device t e baud error_is_fatal = Exits status -> status = -1)
  /\ (forall fd,
         connect_device t (e :: attempts) baud error_is_fatal = Opened fd
         <-> fd <> -1
             /\ match t with
                | DEVICE_TYPE_HARDWARE =>
                    sys_open e = fd /\ sys_tcgetattr e = 0
                    /\ sys_tcsetattr e = 0
                | DEVICE_TYPE_SOCKET_CLIENT =>
                    sys_socket e = fd /\ sys_connect e <> -1
                | DEVICE_TYPE_SOCKET_SERVER =>
                    sys_accept e = fd /\ sys_socket e <> -1
                    /\ sys_bind e <> -1 /\ sys_listen e <> -1
                end)
  /\ ((exists fd, connect_device t (e :: attempts) baud error_is_fatal
                  = Opened fd /\ fd <> -1)
      \/ connect_device t (e :: attempts) baud error_is_fatal = Exited 1
      \/ connect_device t (e :: attempts) baud error_is_fatal = Exited (-1)).
Proof.
  intros Hfatal. apply Z.eqb_neq in Hfatal.
  assert (Hexit : forall status,
             open_device t e baud error_is_fatal = Exits status -> status = -1).
  { intros status Ho. destruct t; cbn [open_device] in Ho.
    - unfold open_serial_port in Ho.
      repeat destruct (_ : bool) in Ho; discriminate.
    - unfold open_unix_domain_socket_as_client in Ho.
      repeat destruct (_ : bool) in Ho; congruence.
    - unfold open_unix_domain_socket_as_server in Ho.
      repeat destruct (_ : bool) in Ho; congruence. }
  assert (Heq : connect_device t (e :: attempts) baud error_is_fatal
                = match open_device t e baud error_is_fatal with
                  | Returns fd => if fd =? -1 then Exited 1 else Opened fd
                  | Exits status => Exited status
                  end).
  { rewrite connect_device_cons, Hfatal. reflexivity. }
  split; [|split; [exact Heq|split; [exact Hexit|split]]].
  - rewrite !connect_device_cons, Hfatal. cbn [negb].
    destruct (open_device t e baud error_is_fatal) as [r|st]; [|reflexivity].
    destruct (r =? -1); reflexivity.
  - intros fd. rewrite Heq. clear Heq Hexit.
    destruct t; cbn [open_device].
    + unfold open_serial_port.
      destruct (sys_open e =? -1) eqn:E1; cbn [negb].
      { apply Z.eqb_eq in E1. change (-1 =? -1) with true. cbv iota.
        split; [discriminate|]. intros (Hfd & Ho & _). congruence. }
      destruct (sys_tcgetattr e =? 0) eqn:E2; cbn [negb].
      2:{ apply Z.eqb_neq in E2. change (-1 =? -1) with true. cbv iota.
          split; [discriminate|]. intros (_ & _ & Hg & _). congruence. }
      destruct (sys_tcsetattr e =? 0) eqn:E3; cbn [negb].
      2:{ apply Z.eqb_neq in E3. change (-1 =? -1) with true. cbv iota.
          split; [discriminate|]. intros (_ & _ & _ & Hs). congruence. }
      rewrite E1. apply Z.eqb_neq in E1. apply Z.eqb_eq in E2, E3. split.
      * intros [= <-]. repeat split; assumption.
      * intros (_ & <- & _). reflexivity.
    + unfold open_unix_domain_socket_as_client.
      destruct (sys_socket e =? -1) eqn:E1.
      { apply Z.eqb_eq in E1. split; [discriminate|].
        intros (Hfd & Ho & _). congruence. }
      destruct (sys_connect e =? -1) eqn:E2.
      { apply Z.eqb_eq in E2. change (-1 =? -1) with true. cbv iota.
        split; [discriminate|]. intros (_ & _ & Hc). congruence. }
      rewrite E1. apply Z.eqb_neq in E1, E2. split.
      * intros [= <-]. repeat split; assumption.
      * intros (_ & <- & _). reflexivity.
    + unfold open_unix_domain_socket_as_server.
      destruct (sys_socket e =? -1) eqn:E1.
      { apply Z.eqb_eq in E1. split; [discriminate|].
        intros (_ & _ & Hs & _). congruence. }
      destruct (sys_bind e =? -1) eqn:E2.
      { apply Z.eqb_eq in E2. split; [discriminate|].
        intros (_ & _ & _ & Hb & _). congruence. }
      destruct (sys_listen e =? -1) eqn:E3.
      { apply Z.eqb_eq in E3. split; [discriminate|].
        intros (_ & _ & _ & _ & Hl). congruence. }
      destruct (sys_accept e =? -1) eqn:E4.
      { apply Z.eqb_eq in E4. change (-1 =? -1) with true. cbv iota.
        split; [discriminate|]. intros (Hfd & Ha & _). congruence. }
      rewrite E4. apply Z.eqb_neq in E1, E2, E3, E4. split.
      * intros [= <-]. repeat split; assumption.
      * intros (_ & <- & _). reflexivity.
  - rewrite Heq.
    destruct (open_device t e baud error_is_fatal) as [r|st] eqn:Ho.
    + destruct (r =? -1) eqn:Er; [right; left; reflexivity|].
      left. exists r. apply Z.eqb_neq in Er. split; [reflexivity|assumption].
    + right; right. f_equal. apply Hexit. reflexivity.
Qed.

(** A serial port that opens at the first attempt, the later attempts
    notwithstanding, and a socket client whose first [connect] is
    refused. *)
Lemma connect_device_fatal_once_witness :
  1 <> 0
  /\ connect_device DEVICE_TYPE_HARDWARE
       [mk_sys 4 (-1) 0 0 0 0 0 0 0; mk_sys 5 0 0 0 0 0 0 0 0] 9600 1
     = Opened 4
  /\ connect_device DEVICE_TYPE_SOCKET_CLIENT
       [mk_sys 0 0 0 0 3 (-1) 0 0 0; mk_sys 0 0 0 0 3 0 0 0 0] 9600 1
     = Exited 1.
Proof.
  assert (H : 1 <> 0) by discriminate.
  split; [exact H|]. split.
  - apply (proj2 (proj2 (proj2 (connect_device_fatal_once
                                  DEVICE_TYPE_HARDWARE
                                  (mk_sys 4 (-1) 0 0 0 0 0 0 0)
                                  [mk_sys 5 0 0 0 0 0 0 0 0] 9600 1 H)))).
    split; [discriminate|]. repeat split.
  - exact (proj1 (proj2 (connect_device_fatal_once DEVICE_TYPE_SOCKET_CLIENT
                           (mk_sys 0 0 0 0 3 (-1) 0 0 0)
                           [mk_sys 0 0 0 0 3 0 0 0 0] 9600 1 H))).
Defined.

(** X11 (reconnection retries).  With [error_is_fatal] clear,
    [connect_device] passes over every attempt whose opener returns -1 and
    returns the descriptor of the first attempt that gives one; while the
    opener keeps returning -1 it keeps trying: the loop has no bound and no
    exit of its own. *)
Theorem connect_device_retries (t : device_type) (failed : list syscalls)
  (e : syscalls) (attempts : list syscalls) (baud fd : Z) :
  Forall (fun e' => open_device t e' baud 0 = Returns (-1)) failed ->
  open_device t e baud 0 = Returns fd -> fd <> -1 ->
  connect_device t (failed ++ e :: attempts) baud 0 = Opened fd
  /\ connect_device t failed baud 0 = StillTrying.
Proof.
  intros Hfailed He Hfd.
  induction Hfailed as [|e' failed He' _ [IH1 IH2]].
  - split; [|reflexivity]. cbn [app]. rewrite connect_device_cons, He.
    apply Z.eqb_neq in Hfd. rewrite Hfd. reflexivity.
  - cbn [app]. rewrite !connect_device_cons, He'. cbn. split; assumption.
Qed.

(** A socket server: two clients lost in [accept], then one accepted. *)
Lemma connect_device_retries_witness :
  connect_device DEVICE_TYPE_SOCKET_SERVER
    [mk_sys 0 0 0 0 3 0 0 0 (-1); mk_sys 0 0 0 0 3 0 0 0 (-1);
     mk_sys 0 0 0 0 3 0 0 0 6; mk_sys 0 0 0 0 (-1) 0 0 0 0] 9600 0
  = Opened 6.
Proof.
  refine (proj1 (connect_device_retries DEVICE_TYPE_SOCKET_SERVER
                   [mk_sys 0 0 0 0 3 0 0 0 (-1); mk_sys 0 0 0 0 3 0 0 0 (-1)]
                   (mk_sys 0 0 0 0 3 0 0 0 6) [mk_sys 0 0 0 0 (-1) 0 0 0 0]
                   9600 6 _ eq_refl _)).
  - repeat constructor.
  - discriminate.
Defined.

(** X12 (what ends the process during reconnection).  With
    [error_is_fatal] clear, the process exits inside [connect_device] only
    with status -1, never with the hardware transport, and only on an
    attempt where [socket] failed or, for the socket server, [bind] or
    [listen] failed. *)
Theorem reconnect_exit_only_from_sockets (t : device_type)
  (attempts : list syscalls) (baud status : Z) :
  connect_device t attempts baud 0 = Exited status ->
  status = -1
  /\ t <> DEVICE_TYPE_HARDWARE
  /\ exists e, In e attempts
               /\ (sys_socket e = -1
                   \/ (t = DEVICE_TYPE_SOCKET_SERVER
                       /\ (sys_bind e = -1 \/ sys_listen e = -1))).
Proof.
  induction attempts as [|e attempts IH]; [discriminate|].
  rewrite connect_device_cons.
  destruct (open_device t e baud 0) as [r|st] eqn:Ho.
  - destruct (r =? -1); [|discriminate]. cbn. intros H.
    destruct (IH H) as (Hst & Ht & e' & Hin & He').
    split; [assumption|]. split; [assumption|].
    exists e'. split; [right; assumption|assumption].
  - intros [= <-]. destruct t; cbn [open_device] in Ho.
    + unfold open_serial_port in Ho.
      repeat destruct (_ : bool) in Ho; discriminate.
    + unfold open_unix_domain_socket_as_client in Ho.
      destruct (sys_socket e =? -1) eqn:Es.
      * apply Z.eqb_eq in Es. injection Ho as <-.
        split; [reflexivity|]. split; [discriminate|].
        exists e. split; [left; reflexivity|left; assumption].
      * destruct (sys_connect e =? -1); discriminate.
    + unfold open_unix_domain_socket_as_server in Ho.
      destruct (sys_socket e =? -1) eqn:Es;
        [|destruct (sys_bind e =? -1) eqn:Eb;
          [|destruct (sys_listen e =? -1) eqn:El;
            [|destruct (sys_accept e =? -1); discriminate]]];
        injection Ho as <-; (split; [reflexivity|]); (split; [discriminate|]);
        exists e; (split; [left; reflexivity|]).
      * left. apply Z.eqb_eq. assumption.
      * right. split; [reflexivity|left; apply Z.eqb_eq; assumption].
      * right. split; [reflexivity|right; apply Z.eqb_eq; assumption].
Qed.

(** A socket server whose second [listen] fails. *)
Lemma reconnect_exit_only_from_sockets_witness :
  connect_device DEVICE_TYPE_SOCKET_SERVER
    [mk_sys 0 0 0 0 3 0 0 0 (-1); mk_sys 0 0 0 0 3 0 0 (-1) 0] 9600 0
  = Exited (-1)
  /\ DEVICE_TYPE_SOCKET_SERVER <> DEVICE_TYPE_HARDWARE.
Proof.
  split; [reflexivity|].
  exact (proj1 (proj2 (reconnect_exit_only_from_sockets
                         DEVICE_TYPE_SOCKET_SERVER
                         [mk_sys 0 0 0 0 3 0 0 0 (-1);
                          mk_sys 0 0 0 0 3 0 0 (-1) 0] 9600 (-1) eq_refl))).
Defined.

(** ** [create_utun]: the first free unit *)

Lemma create_utun_loop_spec (kernel : Z -> tun_calls) (passes : nat) :
  forall num : Z,
    let r := create_utun_loop passes kernel num in
    (fst r = -1 /\ snd r = num + Z.of_nat passes
     /\ forall m, num <= m < num + Z.of_nat passes -> tun kernel m = -1)
    \/ (fst r <> -1 /\ num <= snd r < num + Z.of_nat passes
        /\ fst r = tun kernel (snd r)
        /\ forall m, num <= m < snd r -> tun kernel m = -1).
Proof.
  induction passes as [|passes IH]; intros num; cbn [create_utun_loop].
  - left. cbn [fst snd]. repeat split; intros; lia.
  - destruct (tun kernel num =? -1) eqn:E; cbn [negb].
    + apply Z.eqb_eq in E.
      destruct (IH (num + 1)) as [(Hf & Hs & Hall)|(Hf & Hs & Ht & Hall)].
      * left. repeat split; try assumption; try lia.
        intros m Hm. destruct (Z.eq_dec m num) as [->|Hne]; [assumption|].
        apply Hall. lia.
      * right. repeat split; try assumption; try lia.
        intros m Hm. destruct (Z.eq_dec m num) as [->|Hne]; [assumption|].
        apply Hall. lia.
    + apply Z.eqb_neq in E. right. cbn [fst snd].
      repeat split; try assumption; intros; lia.
Qed.

(** X13 ([create_utun] takes the first free unit).  [create_utun] returns
    the descriptor [fd] and the number [n] exactly when [n] is the least of
    the numbers 0 to 254 for which [tun] succeeds and [fd] is what [tun]
    returned for it; the process exits, with status 1, exactly when [tun]
    fails for all of 0 to 254.  Number 255 and beyond are never tried. *)
Theorem create_utun_first_free (kernel : Z -> tun_calls) :
  (forall fd n,
      create_utun kernel = Returns (fd, n)
      <-> (0 <= n < MAX_UTUN_NUMBER /\ tun kernel n = fd /\ fd <> -1
           /\ forall m, 0 <= m < n -> tun kernel m = -1))
  /\ (forall status,
         create_utun kernel = Exits status
         <-> (status = 1
              /\ forall m, 0 <= m < MAX_UTUN_NUMBER -> tun kernel m = -1)).
Proof.
  unfold create_utun.
  pose proof (create_utun_loop_spec kernel (Z.to_nat MAX_UTUN_NUMBER) 0) as H.
  cbn zeta in H. rewrite Z2Nat.id in H by (unfold MAX_UTUN_NUMBER; lia).
  destruct (create_utun_loop (Z.to_nat MAX_UTUN_NUMBER) kernel 0) as [fd0 n0].
  cbn [fst snd] in H.
  destruct H as [(Hf & Hs & Hall)|(Hf & Hs & Ht & Hall)].
  - subst fd0. change (-1 =? -1) with true. cbv iota. split.
    + intros fd n. split; [discriminate|].
      intros (Hn & Htun & Hfd & _). exfalso. apply Hfd. rewrite <- Htun.
      apply Hall. lia.
    + intros status. split.
      * intros [= <-]. split; [reflexivity|]. intros m Hm. apply Hall. lia.
      * intros [-> _]. reflexivity.
  - apply Z.eqb_neq in Hf. rewrite Hf. apply Z.eqb_neq in Hf. split.
    + intros fd n. split.
      * intros [= <- <-].
        split; [lia|]. split; [symmetry; assumption|].
        split; assumption.
      * intros (Hn & Htun & Hfd & Hlow).
        assert (n = n0).
        { destruct (Z.lt_trichotomy n n0) as [Hlt|[Heq|Hgt]];
            [|assumption|].
          - exfalso. apply Hfd. rewrite <- Htun. apply Hall. lia.
          - exfalso. apply Hf. rewrite Ht. apply Hlow. lia. }
        subst n0. rewrite Ht, Htun. reflexivity.
    + intros status. split; [discriminate|].
      intros [_ Hnone]. exfalso. apply Hf. rewrite Ht. apply Hnone. lia.
Qed.

(** ** [run_ifconfig]: the command line and its array *)

Lemma write_chars_run (text : list Z) :
  forall (w tail : list Z) (i : Z),
    i = Z.of_nat (length w) ->
    (length text <= length tail)%nat ->
    write_chars (w ++ tail) i text
    = Done ((w ++ text) ++ drop (length text) tail).
Proof.
  induction text as [|ch text IH]; intros w tail i Hi Hroom.
  - cbn [write_chars length]. rewrite drop_0, app_nil_r. reflexivity.
  - destruct tail as [|x tail]; [cbn [length] in Hroom; lia|].
    cbn [length] in Hroom. cbn [write_chars].
    rewrite (store_after w x tail) by assumption. cbn [and_then].
    replace (w ++ ch :: tail) with ((w ++ [ch]) ++ tail)
      by (rewrite <- app_assoc; reflexivity).
    rewrite IH by (try lia; rewrite length_app; cbn [length]; lia).
    rewrite <- !app_assoc. reflexivity.
Qed.

Lemma write_chars_short (text : list Z) :
  forall (w tail : list Z) (i : Z),
    i = Z.of_nat (length w) ->
    (length tail < length text)%nat ->
    write_chars (w ++ tail) i text
    = Undefined (StoreOutside (Z.of_nat (length (w ++ tail)))).
Proof.
  induction text as [|ch text IH]; intros w tail i Hi Hroom;
    [cbn [length] in Hroom; lia|].
  cbn [write_chars]. destruct tail as [|x tail].
  - rewrite app_nil_r, store_full by lia. subst i. reflexivity.
  - cbn [length] in Hroom.
    rewrite (store_after w x tail) by assumption. cbn [and_then].
    replace (w ++ ch :: tail) with ((w ++ [ch]) ++ tail)
      by (rewrite <- app_assoc; reflexivity).
    rewrite IH by (try lia; rewrite length_app; cbn [length]; lia).
    rewrite !length_app. cbn [length]. do 3 f_equal. lia.
Qed.

Lemma c_string_app (text rest : list Z) :
  Forall (fun ch => ch <> 0) text -> c_string (text ++ 0 :: rest) = text.
Proof.
  induction 1 as [|ch text Hch _ IH]; [reflexivity|].
  cbn [app c_string]. apply Z.eqb_neq in Hch. rewrite Hch, IH. reflexivity.
Qed.

Lemma digits_chars (places : nat) :
  forall n, 0 <= n -> Forall (fun ch => ch <> 0) (digits places n).
Proof.
  induction places as [|places IH]; intros n Hn; cbn [digits];
    [apply Forall_nil; exact I|].
  destruct (n <? 10).
  - apply Forall_cons_iff. split; [lia|apply Forall_nil; exact I].
  - apply Forall_app. split; [apply IH; apply Z.div_pos; lia|].
    apply Forall_cons_iff. split; [|apply Forall_nil; exact I].
    pose proof (Z.mod_pos_bound n 10). lia.
Qed.

Lemma ifconfig_text_chars (utun_num : Z) (local_ip remote_ip : list Z) :
  Forall (fun ch => ch <> 0) local_ip ->
  Forall (fun ch => ch <> 0) remote_ip ->
  Forall (fun ch => ch <> 0) (ifconfig_text utun_num local_ip remote_ip).
Proof.
  intros Hl Hr. unfold ifconfig_text.
  repeat (apply Forall_app; split); try assumption.
  - repeat constructor; discriminate.
  - unfold itoa. destruct (utun_num <? 0) eqn:E.
    + apply Z.ltb_lt in E. apply Forall_cons_iff.
      split; [discriminate|apply digits_chars; lia].
    + apply Z.ltb_ge in E. apply digits_chars. assumption.
  - repeat constructor; discriminate.
  - repeat constructor; discriminate.
Qed.

(** X14 (the array of [run_ifconfig]).  For two addresses given as C
    strings, [sprintf] stays inside the array exactly when the command line
    is shorter than the array; [system] is then given the command line
    ["ifconfig utun<n> <local> <remote>"], and the process exits with
    status 1 when [system] does not return 0.  Otherwise [sprintf] stores
    past the end of the array. *)
Theorem run_ifconfig_room (ifconfig : list Z) (system : list Z -> Z)
  (utun_num : Z) (local_ip remote_ip : list Z) :
  Forall (fun ch => ch <> 0) local_ip ->
  Forall (fun ch => ch <> 0) remote_ip ->
  let text := ifconfig_text utun_num local_ip remote_ip in
  run_ifconfig ifconfig system utun_num local_ip remote_ip
  = if (length text <? length ifconfig)%nat
    then Done (if negb (system text =? 0) then Exits 1 else Returns tt)
    else Undefined (StoreOutside (Z.of_nat (length ifconfig))).
Proof.
  intros Hl Hr text. unfold run_ifconfig. fold text.
  pose proof (ifconfig_text_chars utun_num local_ip remote_ip Hl Hr) as Htext.
  fold text in Htext.
  destruct (Nat.ltb_spec (length text) (length ifconfig)) as [Hfit|Hshort].
  - pose proof (write_chars_run (text ++ [0]) [] ifconfig 0 eq_refl) as Hw.
    cbn [app] in Hw. rewrite Hw by (rewrite length_app; cbn [length]; lia).
    cbn [and_then]. rewrite <- app_assoc. cbn [app].
    rewrite c_string_app by assumption.
    destruct (negb (system text =? 0)); reflexivity.
  - pose proof (write_chars_short (text ++ [0]) [] ifconfig 0 eq_refl) as Hw.
    cbn [app] in Hw. rewrite Hw by (rewrite length_app; cbn [length]; lia).
    reflexivity.
Qed.

(** Two dotted addresses and unit 3, into an array of 50 cells. *)
Lemma run_ifconfig_room_witness :
  Forall (fun ch => ch <> 0) (chars "10.0.0.1")
  /\ run_ifconfig (repeat 0 50) (fun _ => 0) 3 (chars "10.0.0.1")
       (chars "10.0.0.2")
     = Done (Returns tt).
Proof.
  assert (H1 : Forall (fun ch => ch <> 0) (chars "10.0.0.1"))
    by (repeat constructor; discriminate).
  assert (H2 : Forall (fun ch => ch <> 0) (chars "10.0.0.2"))
    by (repeat constructor; discriminate).
  split; [exact H1|].
  exact (run_ifconfig_room (repeat 0 50) (fun _ => 0) 3 (chars "10.0.0.1")
           (chars "10.0.0.2") H1 H2).
Defined.

Lemma length_itoa_unit (n : Z) :
  0 <= n < 1000 -> (length (itoa n) <= 3)%nat.
Proof.
  intros Hn. unfold itoa.
  replace (n <? 0) with false by (symmetry; apply Z.ltb_ge; lia).
  cbn [digits]. destruct (n <? 10) eqn:E1; [cbn [length]; lia|].
  apply Z.ltb_ge in E1.
  destruct (n / 10 <? 10) eqn:E2; [cbn [length app]; lia|].
  apply Z.ltb_ge in E2.
  replace (n / 10 / 10 <? 10) with true; [cbn [length app]; lia|].
  symmetry. apply Z.ltb_lt.
  apply Z.div_lt_upper_bound; [lia|]. apply Z.div_lt_upper_bound; lia.
Qed.

(** X15 (addresses that fit).  With a unit number that [create_utun] can
    return (0 to 254) and two addresses of at most 15 characters each, the
    length of a dotted IPv4 address, the command line has at most 48
    characters and [run_ifconfig] stays inside its array of 50. *)
Theorem run_ifconfig_fits (ifconfig : list Z) (system : list Z -> Z)
  (utun_num : Z) (local_ip remote_ip : list Z) :
  length ifconfig = 50%nat ->
  0 <= utun_num < MAX_UTUN_NUMBER ->
  Forall (fun ch => ch <> 0) local_ip ->
  Forall (fun ch => ch <> 0) remote_ip ->
  (length local_ip <= 15)%nat -> (length remote_ip <= 15)%nat ->
  (length (ifconfig_text utun_num local_ip remote_ip) <= 48)%nat
  /\ run_ifconfig ifconfig system utun_num local_ip remote_ip
     = Done (if negb (system (ifconfig_text utun_num local_ip remote_ip) =? 0)
             then Exits 1 else Returns tt).
Proof.
  intros Hsize Hn Hl Hr Hll Hlr. unfold MAX_UTUN_NUMBER in Hn.
  assert (Hlen : (length (ifconfig_text utun_num local_ip remote_ip) <= 48)%nat).
  { unfold ifconfig_text. rewrite !length_app.
    pose proof (length_itoa_unit utun_num ltac:(lia)).
    change (length (chars "ifconfig utun")) with 13%nat. cbn [length]. lia. }
  split; [assumption|].
  pose proof (ifconfig_text_chars utun_num local_ip remote_ip Hl Hr) as Htext.
  unfold run_ifconfig.
  pose proof (write_chars_run
                (ifconfig_text utun_num local_ip remote_ip ++ [0]) []
                ifconfig 0 eq_refl) as Hw.
  cbn [app] in Hw. rewrite Hw by (rewrite length_app; cbn [length]; lia).
  cbn [and_then]. rewrite <- app_assoc. cbn [app].
  rewrite c_string_app by assumption.
  destruct (negb _); reflexivity.
Qed.

(** Unit 254 and two addresses of 15 characters: 48 characters in all. *)
Lemma run_ifconfig_fits_witness :
  0 <= 254 < MAX_UTUN_NUMBER
  /\ length (ifconfig_text 254 (chars "192.168.100.201")
               (chars "192.168.100.202")) = 48%nat
  /\ run_ifconfig (repeat 0 50) (fun _ => 1) 254 (chars "192.168.100.201")
       (chars "192.168.100.202")
     = Done (Exits 1).
Proof.
  assert (Hn : 0 <= 254 < MAX_UTUN_NUMBER) by (unfold MAX_UTUN_NUMBER; lia).
  split; [exact Hn|]. split; [reflexivity|].
  refine (proj2 (run_ifconfig_fits (repeat 0 50) (fun _ => 1) 254
                   (chars "192.168.100.201") (chars "192.168.100.202")
                   eq_refl Hn _ _ _ _)).
  - repeat constructor; discriminate.
  - repeat constructor; discriminate.
  - cbn. lia.
  - cbn. lia.
Defined.

(** ** What the outbound pump hands to the transport, on any script *)

(** One pass of [tx_thread] over a read of any size: what the read
    delivered is cut to [MTU + 4] bytes; with 4 bytes or more the pass
    encodes the rest and goes on, with fewer it passes a negative length
    on. *)
Lemma tx_body_any (k : tx_stack) (bytes : list Z) (utun : list tun_event)
  (results : list Z) (calls : list (list Z)) (wire : list Z) :
  tx_arrays k ->
  let d := take (Z.to_nat MAX_PACKET_SIZE) bytes in
  tx_body k (mk_tx (TunFrame bytes :: utun) results calls wire)
  = if (4 <=? length d)%nat
    then Done (Continue
                 (mk_tx utun (tl results) (calls ++ encoded [d])
                    (wire ++ wire_of results (encoded [d]))))
    else Undefined (NegativeCount (Z.of_nat (length d) - 4)).
Proof.
  intros Hk d.
  assert (Hd : Z.of_nat (length d) <= MAX_PACKET_SIZE).
  { unfold d. rewrite length_take.
    unfold MAX_PACKET_SIZE, NULL_LOOPBACK_HEADER_SIZE, MTU. lia. }
  destruct (Nat.leb_spec 4 (length d)) as [H4|H4].
  - rewrite <- (tx_body_frame k d utun results calls wire Hk);
      [|unfold tunnel_frame; lia].
    unfold tx_body. cbn [tx_utun read_utun]. fold d.
    replace (take (Z.to_nat MAX_PACKET_SIZE) d) with d
      by (symmetry; apply take_ge; lia).
    reflexivity.
  - unfold tx_body. cbn [tx_utun read_utun]. fold d.
    replace (Z.of_nat (length d) =? -1) with false
      by (symmetry; apply Z.eqb_neq; lia).
    unfold memcpy.
    replace (Z.of_nat (length d) - 4 <? 0) with true
      by (symmetry; apply Z.ltb_lt; lia).
    reflexivity.
Qed.

Lemma transport_frame_Encode_doc (p : list Z) :
  Z.of_nat (length p) <= MTU -> transport_frame (Encode_doc p).
Proof.
  intros Hp. unfold transport_frame, MAX_PACKET_SIZE_SLIP, MTU in *.
  pose proof (length_Encode_doc p). split; [lia|].
  exists (stuffing p). split; [reflexivity|apply stuffing_no_END].
Qed.

Lemma tx_loop_transport_frames (k : tx_stack) (budget : nat) :
  forall s s' : tx_state,
    tx_arrays k ->
    Forall transport_frame (tx_calls s) ->
    tx_loop budget k s = Done s' ->
    Forall transport_frame (tx_calls s').
Proof.
  induction budget as [|budget IH]; intros s s' Hk Hcalls;
    cbn [tx_loop]; [discriminate|].
  destruct s as [utun results calls wire]. cbn [tx_calls] in Hcalls.
  destruct utun as [|[|bytes] utun].
  - cbn. discriminate.
  - cbn. intros [= <-]. assumption.
  - rewrite tx_body_any by assumption. cbv zeta.
    destruct (Nat.leb_spec 4 (length (take (Z.to_nat MAX_PACKET_SIZE) bytes)))
      as [H4|H4]; cbn [and_then]; [|discriminate].
    apply IH; [assumption|]. cbn [tx_calls encoded map].
    apply Forall_app. split; [assumption|].
    apply Forall_cons_iff. split; [|apply Forall_nil; exact I].
    apply transport_frame_Encode_doc.
    rewrite length_drop, length_take.
    unfold MAX_PACKET_SIZE, NULL_LOOPBACK_HEADER_SIZE, MTU. lia.
Qed.

(** X16 (what reaches the transport).  On any script of the tunnel (reads
    of any size, failing reads), if [tx_thread] returns without having left
    its arrays, every buffer it has handed to [write] on the transport has
    1 to [2 * MTU + 1] bytes and holds [END] as its last byte and nowhere
    else. *)
Theorem tx_thread_writes_transport_frames (k : tx_stack)
  (utun : list tun_event) (results : list Z) (s : tx_state) :
  tx_arrays k ->
  tx_thread k (mk_tx utun results [] []) = Done s ->
  Forall transport_frame (tx_calls s).
Proof.
  intros Hk Hrun. unfold tx_thread in Hrun.
  apply (tx_loop_transport_frames k _ _ s Hk) in Hrun; [assumption|].
  cbn [tx_calls]. apply Forall_nil. exact I.
Qed.

(** A read longer than the array, a read of the header alone, a failure. *)
Lemma tx_thread_writes_transport_frames_witness :
  exists s,
    tx_thread blank_stack
      (mk_tx [TunFrame (repeat 0xc0 2000); TunFrame [0; 0; 0; AF_INET];
              TunFail] [] [] [])
    = Done s
    /\ length (tx_calls s) = 2%nat
    /\ Forall transport_frame (tx_calls s).
Proof.
  eexists. split; [vm_compute; reflexivity|]. split; [reflexivity|].
  apply (tx_thread_writes_transport_frames blank_stack
           [TunFrame (repeat 0xc0 2000); TunFrame [0; 0; 0; AF_INET]; TunFail]
           []).
  - repeat split.
  - vm_compute. reflexivity.
Defined.

(** ** The loop of [main]: reconnection *)

(** With [error_is_fatal] clear, an exit inside [connect_device] has status
    -1 and comes from [socket], [bind] or [listen], never from the hardware
    transport. *)
Lemma connect_device_exit_cases (t : device_type)
  (attempts : list syscalls) (baud status : Z) :
  connect_device t attempts baud 0 = Exited status ->
  status = -1 /\ t <> DEVICE_TYPE_HARDWARE.
Proof.
  induction attempts as [|e attempts IH]; [discriminate|].
  rewrite connect_device_cons.
  destruct (open_device t e baud 0) as [r|st] eqn:Ho.
  - destruct (r =? -1); [|discriminate]. cbn. exact IH.
  - intros [= <-]. destruct t; cbn [open_device] in Ho.
    + unfold open_serial_port in Ho.
      repeat destruct (_ : bool) in Ho; discriminate.
    + unfold open_unix_domain_socket_as_client in Ho.
      repeat destruct (_ : bool) in Ho; try discriminate;
        injection Ho as <-; (split; [reflexivity|discriminate]).
    + unfold open_unix_domain_socket_as_server in Ho.
      repeat destruct (_ : bool) in Ho; try discriminate;
        injection Ho as <-; (split; [reflexivity|discriminate]).
Qed.



(** X18 (what can end the process in the loop of [main]).  The statement
    is about the loop as embedded above: the main thread and the
    [rx_thread] it waits for, in runs where every [rx_thread] stays inside
    its arrays and returns; [tx_thread] and signals are no part of it.  In
    such a run the process is ended only by an exit inside
    [connect_device]: the status is -1, the transport is not the hardware
    one, and the exit is that of the reconnection of one of the sessions.
    With the hardware transport every such run leaves the loop going:
    [connect_device] still retrying, or the next [rx_thread] about to
    start. *)
Theorem main_loop_exit (t : device_type) (baud : Z) (sessions : list session)
  (m : main_state) :
  (forall (status : Z) (m' : main_state),
      main_loop t baud sessions m = Done (ProcessExited status, m') ->
      status = -1 /\ t <> DEVICE_TYPE_HARDWARE
      /\ exists ss, In ss sessions
                    /\ connect_device t (ses_attempts ss) baud 0
                       = Exited status)
  /\ (t = DEVICE_TYPE_HARDWARE ->
      Forall (fun ss => exists s,
                  rx_thread (ses_port ss) (ses_c ss) (ses_packet ss) = Done s)
        sessions ->
      exists e m',
        main_loop t baud sessions m = Done (e, m')
        /\ (e = Reconnecting \/ e = NextSession)).
Proof.
  split.
  - revert m. induction sessions as [|ss sessions IH]; intros m status m';
      cbn [main_loop]; [discriminate|].
    destruct (rx_thread (ses_port ss) (ses_c ss) (ses_packet ss)) as [s| |];
      cbn [and_then]; try discriminate.
    destruct (connect_device t (ses_attempts ss) baud 0) as [fd|st|] eqn:Hconn.
    + intros H. destruct (IH _ _ _ H) as (Hst & Ht & ss' & Hin & Hss').
      split; [assumption|]. split; [assumption|].
      exists ss'. split; [right; assumption|assumption].
    + intros [= <- _].
      destruct (connect_device_exit_cases t _ baud st Hconn) as [Hst Ht].
      split; [assumption|]. split; [assumption|].
      exists ss. split; [left; reflexivity|assumption].
    + discriminate.
  - intros -> Hrx. revert m.
    induction Hrx as [|ss sessions [s Hs] _ IH]; intros m; cbn [main_loop].
    + eexists _, _. split; [reflexivity|right; reflexivity].
    + rewrite Hs. cbn [and_then].
      destruct (connect_device DEVICE_TYPE_HARDWARE (ses_attempts ss) baud 0)
        as [fd|st|] eqn:Hconn.
      * apply IH.
      * destruct (connect_device_exit_cases _ _ baud st Hconn) as [_ Ht].
        congruence.
      * eexists _, _. split; [reflexivity|left; reflexivity].
Qed.

(** A socket server whose [bind] fails after the first client is lost, and
    a serial port that is lost by a failing read and does not reopen. *)
Lemma main_loop_exit_witness :
  main_loop DEVICE_TYPE_SOCKET_SERVER 9600
    [mk_session (mk_port [Rd 0x45; Rd 0xc0; Fail; Eof] 0 [])
       (repeat 0 (Z.to_nat MTU)) (repeat 0 (Z.to_nat MAX_PACKET_SIZE))
       [mk_sys 0 0 0 0 3 0 (-1) 0 0]]
    (mk_main [] [])
  = Done (ProcessExited (-1),
          mk_main [Connection_up; Device_lost] [[0; 0; 0; AF_INET; 0x45]])
  /\ DEVICE_TYPE_SOCKET_SERVER <> DEVICE_TYPE_HARDWARE
  /\ exists e m',
       main_loop DEVICE_TYPE_HARDWARE 9600
         [mk_session (mk_port [Rd 0x45; Rd 0xc0; Fail; Eof] 0 [])
            (repeat 0 (Z.to_nat MTU)) (repeat 0 (Z.to_nat MAX_PACKET_SIZE))
            [mk_sys (-1) 0 0 0 0 0 0 0 0]]
         (mk_main [] [])
       = Done (e, m')
       /\ (e = Reconnecting \/ e = NextSession).
Proof.
  assert (H : main_loop DEVICE_TYPE_SOCKET_SERVER 9600
                [mk_session (mk_port [Rd 0x45; Rd 0xc0; Fail; Eof] 0 [])
                   (repeat 0 (Z.to_nat MTU))
                   (repeat 0 (Z.to_nat MAX_PACKET_SIZE))
                   [mk_sys 0 0 0 0 3 0 (-1) 0 0]]
                (mk_main [] [])
              = Done (ProcessExited (-1),
                      mk_main [Connection_up; Device_lost]
                        [[0; 0; 0; AF_INET; 0x45]]))
    by (vm_compute; reflexivity).
  split; [exact H|]. split.
  - exact (proj1 (proj2 (proj1 (main_loop_exit _ _ _ _) _ _ H))).
  - apply (proj2 (main_loop_exit DEVICE_TYPE_HARDWARE 9600 _ (mk_main [] [])));
      [reflexivity|].
    apply Forall_singleton. eexists. cbn [ses_port ses_c ses_packet].
    vm_compute. reflexivity.
Defined.
